(** * structures.fields: coercing fields and their defaults

    A shallow embedding of [src/structures/fields.py].  The module is a thin
    layer over Python's built-in constructors ([int], [float], [bool],
    [bytes], [str], [list], [tuple], [set], [frozenset], [dict],
    [decimal.Decimal]), so the development has three layers:

    - [Py]: the values of the Python data model that the fields handle, and
      the built-in constructors as functions [value -> result value];
    - [Heap]: object identity.  Every Python object lives in a cell of a heap;
      a callable takes and returns references, and either hands back its
      argument (what [tuple], [frozenset], [str], ... do for an argument that
      already has the exact target type) or allocates a new object;
    - [Fields]: [Field.__init__], [SimpleField], [String], [StandartContainer]
      and its [default] property, and the descriptor that reads and writes an
      attribute of a structure instance. *)

From Stdlib Require Import ZArith NArith List Bool Lia SpecFloat DecimalString.
From Stdlib.Strings Require Import Byte.
From Stdlib Require Import DecimalPos.
From stdpp Require Import base option list gmap strings.
Import ListNotations.

Set Warnings "-register-all".

Local Open Scope Z_scope.

(** ** Exceptions and results *)

Inductive exn : Type :=
| TypeError
| ValueError
| OverflowError
| UnicodeDecodeError
| LookupError
| AttributeError
| InvalidOperation
| MemoryError
| SystemError.

Inductive result (A : Type) : Type :=
| Ok (a : A)
| Raise (e : exn).
Arguments Ok {A} a.
Arguments Raise {A} e.

Definition rbind {A B} (r : result A) (k : A -> result B) : result B :=
  match r with
  | Ok a => k a
  | Raise e => Raise e
  end.

Notation "'do' x <- e ; k" := (rbind e (fun x => k))
  (at level 10, x name, e at level 100, k at level 200).

Module Py.

(** ** Values *)

(** A text string is a sequence of Unicode code points. *)
Definition text := list N.

Definition text_of_bytes (bs : list byte) : text := map Byte.to_N bs.

(** ASCII literals. *)
Definition u (s : string) : text := text_of_bytes (String.list_byte_of_string s).
Definition b (s : string) : list byte := String.list_byte_of_string s.

(** [decimal.Decimal]: sign, coefficient and exponent, or a special value. *)
Inductive decimal : Type :=
| DFinite (neg : bool) (coeff : N) (exp : Z)
| DInfinity (neg : bool)
| DNaN (neg : bool) (signaling : bool) (payload : N).

Inductive value : Type :=
| VNoDefault                       (* the marker object of markers.py *)
| VNone
| VBool (v : bool)
| VInt (z : Z)
| VFloat (f : spec_float)          (* binary64 *)
| VDecimal (d : decimal)
| VStr (s : text)
| VBytes (bs : list byte)
| VByteArray (bs : list byte)
| VRange (start stop step : Z)     (* step <> 0 *)
| VList (xs : list value)
| VTuple (xs : list value)
| VSet (xs : list value)           (* pairwise different elements *)
| VFrozenSet (xs : list value)
| VDict (kvs : list (value * value)).

(** Scope of the model.  The items of a container are values, not
    references: two containers of the program can share an item, and when
    that item is itself mutable an update of it shows through both, which
    the model does not express.  Statements about updates are therefore made
    for containers of immutable items.  The elements of a set are kept in the
    order in which they were added; a set of the interpreter is iterated in
    an order of its own choice, so no statement below fixes the order of the
    items taken from a set. *)

(** What the interpreter knows and the repository does not contain: Unicode
    tables, the codec registry beyond the codecs defined below, literal
    parsers of [float] and [Decimal], [repr], and how much memory is left:
    whether an object of that many items can be allocated. *)
Class Runtime : Type := {
  unicode_digit : N -> option Z;       (* decimal digits beyond ASCII *)
  unicode_space : N -> bool;           (* white space beyond ASCII *)
  extra_codec : string -> option (list byte -> result text);
  repr : value -> result text;
  can_allocate : Z -> bool;
  float_of_literal : text -> result spec_float;
  float_of_decimal : decimal -> result spec_float;
  decimal_of_literal : text -> result decimal;
  decimal_of_sequence : list value -> result decimal
}.

(** ** Numbers *)

(** The exact value of a number: a fraction, an infinity or a NaN. *)
Inductive num : Type :=
| NumNaN
| NumInf (neg : bool)
| NumFin (n : Z) (d : Z).          (* n / d, d > 0 *)

Definition signed (neg : bool) (m : Z) : Z := if neg then - m else m.

Definition scale (base : Z) (m e : Z) : num :=
  if 0 <=? e then NumFin (m * base ^ e) 1 else NumFin m (base ^ (- e)).

Definition num_of_float (f : spec_float) : num :=
  match f with
  | S754_zero _ => NumFin 0 1
  | S754_infinity s => NumInf s
  | S754_nan => NumNaN
  | S754_finite s m e => scale 2 (signed s (Zpos m)) e
  end.

Definition num_of_decimal (d : decimal) : num :=
  match d with
  | DFinite s c e => scale 10 (signed s (Z.of_N c)) e
  | DInfinity s => NumInf s
  | DNaN _ _ _ => NumNaN
  end.

Definition num_of (v : value) : option num :=
  match v with
  | VBool v => Some (NumFin (if v then 1 else 0) 1)
  | VInt z => Some (NumFin z 1)
  | VFloat f => Some (num_of_float f)
  | VDecimal d => Some (num_of_decimal d)
  | _ => None
  end.

Definition num_eq (x y : num) : bool :=
  match x, y with
  | NumFin n1 d1, NumFin n2 d2 => n1 * d2 =? n2 * d1
  | NumInf s1, NumInf s2 => Bool.eqb s1 s2
  | _, _ => false
  end.

(** Rounding toward zero, as [int()] does on [float] and [Decimal]. *)
Definition num_trunc (x : num) : result Z :=
  match x with
  | NumNaN => Raise ValueError
  | NumInf _ => Raise OverflowError
  | NumFin n d => Ok (Z.quot n d)
  end.

(** ** Ranges *)

Definition range_len (start stop step : Z) : Z :=
  if 0 <? step then
    (if start <? stop then (stop - start - 1) / step + 1 else 0)
  else
    (if stop <? start then (start - stop - 1) / (- step) + 1 else 0).

Definition range_items (start stop step : Z) : list Z :=
  map (fun i => start + Z.of_nat i * step)
      (seq 0 (Z.to_nat (range_len start stop step))).

(** ** Equality ([==]) and hashing *)

Fixpoint seq_eqb {A} (eqb : A -> A -> bool) (s t : list A) : bool :=
  match s, t with
  | [], [] => true
  | x :: s', y :: t' => eqb x y && seq_eqb eqb s' t'
  | _, _ => false
  end.

Definition text_eqb : text -> text -> bool := seq_eqb N.eqb.
Definition bytes_eqb : list byte -> list byte -> bool := seq_eqb Byte.eqb.

Definition range_eqb (a1 a2 a3 b1 b2 b3 : Z) : bool :=
  let la := range_len a1 a2 a3 in
  let lb := range_len b1 b2 b3 in
  (la =? lb) && ((la =? 0) || ((a1 =? b1) && ((la =? 1) || (a3 =? b3)))).

(** [py_eq x y] is [x == y].  Elements of containers are values, not
    references, so the identity shortcut that containers take before [==]
    is not modelled: a NaN in a container is equal to nothing, where the
    interpreter finds one NaN object equal to itself.  The two agree on
    values without a NaN. *)
Fixpoint py_eq (x y : value) : bool :=
  let fix all2 (xs ys : list value) : bool :=
    match xs, ys with
    | [], [] => true
    | x :: xs', y :: ys' => py_eq x y && all2 xs' ys'
    | _, _ => false
    end in
  let fix member (x : value) (ys : list value) : bool :=
    match ys with
    | [] => false
    | y :: ys' => py_eq x y || member x ys'
    end in
  let fix found (xs : list value) (y : value) : bool :=
    match xs with
    | [] => false
    | x :: xs' => py_eq x y || found xs' y
    end in
  let fix subset (xs ys : list value) : bool :=
    match xs with
    | [] => true
    | x :: xs' => member x ys && subset xs' ys
    end in
  let fix covers (xs ys : list value) : bool :=
    match ys with
    | [] => true
    | y :: ys' => found xs y && covers xs ys'
    end in
  let fix has_item (k v : value) (kvs : list (value * value)) : bool :=
    match kvs with
    | [] => false
    | (k', v') :: kvs' => (py_eq k k' && py_eq v v') || has_item k v kvs'
    end in
  let fix items_in (xs ys : list (value * value)) : bool :=
    match xs with
    | [] => true
    | (k, v) :: xs' => has_item k v ys && items_in xs' ys
    end in
  match x, y with
  | VNoDefault, VNoDefault => true
  | VNone, VNone => true
  | VStr s, VStr t => text_eqb s t
  | (VBytes s | VByteArray s), (VBytes t | VByteArray t) => bytes_eqb s t
  | VRange a1 a2 a3, VRange b1 b2 b3 => range_eqb a1 a2 a3 b1 b2 b3
  | VList xs, VList ys => all2 xs ys
  | VTuple xs, VTuple ys => all2 xs ys
  | (VSet xs | VFrozenSet xs), (VSet ys | VFrozenSet ys) =>
      subset xs ys && covers xs ys
  | VDict xs, VDict ys =>
      (length xs =? length ys)%nat && items_in xs ys
  | _, _ =>
      match num_of x, num_of y with
      | Some n, Some m => num_eq n m
      | _, _ => false
      end
  end.

(** [hash(x)] succeeds. *)
Fixpoint hashable (x : value) : bool :=
  match x with
  | VByteArray _ | VList _ | VSet _ | VDict _ => false
  | VDecimal (DNaN _ true _) => false
  | VTuple xs => forallb hashable xs
  | _ => true
  end.

(** ** Iteration *)

(** The items that a [for] loop over [v] sees.  For a set the order is
    that of the model (see above). *)
Definition py_iter (v : value) : result (list value) :=
  match v with
  | VStr s => Ok (map (fun c => VStr [c]) s)
  | VBytes bs | VByteArray bs =>
      Ok (map (fun x => VInt (Z.of_N (Byte.to_N x))) bs)
  | VRange start stop step => Ok (map VInt (range_items start stop step))
  | VList xs | VTuple xs | VSet xs | VFrozenSet xs => Ok xs
  | VDict kvs => Ok (map fst kvs)
  | _ => Raise TypeError
  end.

(** ** Sets and dictionaries *)

Definition contains (acc : list value) (x : value) : bool :=
  existsb (fun y => py_eq y x) acc.

Definition set_add (acc : list value) (x : value) : list value :=
  if contains acc x then acc else acc ++ [x].

Definition set_of (xs : list value) : result (list value) :=
  if forallb hashable xs then Ok (fold_left set_add xs []) else Raise TypeError.

Fixpoint dict_put (kvs : list (value * value)) (k v : value)
  : list (value * value) :=
  match kvs with
  | [] => [(k, v)]
  | (k', v') :: rest =>
      if py_eq k' k then (k', v) :: rest else (k', v') :: dict_put rest k v
  end.

(** [dict.update] from a sequence of pairs. *)
Fixpoint dict_update (acc : list (value * value)) (items : list value)
  : result (list (value * value)) :=
  match items with
  | [] => Ok acc
  | item :: rest =>
      match py_iter item with
      | Raise e => Raise e
      | Ok [k; v] =>
          if hashable k then dict_update (dict_put acc k v) rest
          else Raise TypeError
      | Ok _ => Raise ValueError
      end
  end.

Definition py_dict (v : value) : result value :=
  match v with
  | VDict kvs => Ok (VDict kvs)
  | _ => do items <- py_iter v; do kvs <- dict_update [] items; Ok (VDict kvs)
  end.

(** ** [bool] *)

Definition float_is_zero (f : spec_float) : bool :=
  match f with S754_zero _ => true | _ => false end.

Definition decimal_is_zero (d : decimal) : bool :=
  match d with DFinite _ c _ => N.eqb c 0 | _ => false end.

Definition is_nil {A} (l : list A) : bool :=
  match l with [] => true | _ => false end.

Definition truth (v : value) : bool :=
  match v with
  | VNoDefault => true
  | VNone => false
  | VBool v => v
  | VInt z => negb (z =? 0)
  | VFloat f => negb (float_is_zero f)
  | VDecimal d => negb (decimal_is_zero d)
  | VStr s => negb (is_nil s)
  | VBytes bs | VByteArray bs => negb (is_nil bs)
  | VRange start stop step => negb (range_len start stop step =? 0)
  | VList xs | VTuple xs | VSet xs | VFrozenSet xs => negb (is_nil xs)
  | VDict kvs => negb (is_nil kvs)
  end.

Definition py_bool (v : value) : result value := Ok (VBool (truth v)).

(** ** The items of [bytes] *)

Definition byte_of_Z (z : Z) : result byte :=
  if (0 <=? z) && (z <? 256) then
    match Byte.of_N (Z.to_N z) with
    | Some x => Ok x
    | None => Raise ValueError
    end
  else Raise ValueError.

Definition byte_of_item (v : value) : result byte :=
  match v with
  | VInt z => byte_of_Z z
  | VBool v => Ok (if v then x01 else x00)
  | _ => Raise TypeError
  end.

Fixpoint bytes_of_items (xs : list value) : result (list byte) :=
  match xs with
  | [] => Ok []
  | x :: rest =>
      do y <- byte_of_item x; do ys <- bytes_of_items rest; Ok (y :: ys)
  end.

(** [sys.maxsize], the largest size of an object, on a 64-bit build. *)
Definition maxsize : Z := 2 ^ 63 - 1.

(** The bytes that a [bytes] object takes besides its contents, on a 64-bit
    build. *)
Definition bytes_header : Z := 33.

(** ** Codecs *)

Inductive codec : Type := UTF8 | ASCII | Latin1.

Definition codec_of_name (enc : string) : option codec :=
  if existsb (String.eqb enc) ["UTF-8"; "utf-8"; "UTF8"; "utf8"; "utf_8"]%string
  then Some UTF8
  else if existsb (String.eqb enc) ["ascii"; "ASCII"; "us-ascii"]%string
  then Some ASCII
  else if existsb (String.eqb enc) ["latin-1"; "latin1"; "iso-8859-1"]%string
  then Some Latin1
  else None.

Definition continuation (x : N) : bool := ((128 <=? x) && (x <=? 191))%N.

(** Strict UTF-8: shortest form only, no surrogates, at most U+10FFFF. *)
Fixpoint utf8_decode (bs : list N) : option text :=
  match bs with
  | [] => Some []
  | b0 :: r0 =>
      if (b0 <? 128)%N then option_map (cons b0) (utf8_decode r0)
      else if ((194 <=? b0) && (b0 <=? 223))%N then
        match r0 with
        | b1 :: r1 =>
            if continuation b1
            then option_map (cons ((b0 - 192) * 64 + (b1 - 128))%N)
                            (utf8_decode r1)
            else None
        | _ => None
        end
      else if ((224 <=? b0) && (b0 <=? 239))%N then
        match r0 with
        | b1 :: b2 :: r2 =>
            let c := ((b0 - 224) * 4096 + (b1 - 128) * 64 + (b2 - 128))%N in
            if continuation b1 && continuation b2 && (2048 <=? c)%N
               && negb ((55296 <=? c) && (c <=? 57343))%N
            then option_map (cons c) (utf8_decode r2)
            else None
        | _ => None
        end
      else if ((240 <=? b0) && (b0 <=? 244))%N then
        match r0 with
        | b1 :: b2 :: b3 :: r3 =>
            let c := ((b0 - 240) * 262144 + (b1 - 128) * 4096
                      + (b2 - 128) * 64 + (b3 - 128))%N in
            if continuation b1 && continuation b2 && continuation b3
               && (65536 <=? c)%N && (c <=? 1114111)%N
            then option_map (cons c) (utf8_decode r3)
            else None
        | _ => None
        end
      else None
  end.

Definition ascii_only (t : text) : bool := forallb (fun c => (c <? 128)%N) t.

Definition decode_with (c : codec) (bs : list byte) : result text :=
  let t := text_of_bytes bs in
  match c with
  | UTF8 =>
      match utf8_decode t with
      | Some s => Ok s
      | None => Raise UnicodeDecodeError
      end
  | ASCII => if ascii_only t then Ok t else Raise UnicodeDecodeError
  | Latin1 => Ok t
  end.

(** ** Integer literals *)

Definition digits_of_Z (z : Z) : text :=
  u (DecimalString.NilZero.string_of_int (Z.to_int z)).

(** [sys.get_int_max_str_digits()], as the interpreter starts: the longest
    decimal numeral that [int] reads and [str] writes. *)
Definition max_str_digits : Z := 4300.

Section Builtins.
Context `{Runtime}.

(** ** [list], [tuple], [set], [frozenset] *)

(** [list], [tuple] and [bytes] ask an iterable for its length before they
    take its items, and allocate room for that many.  Of the values here
    only a range can announce more items than there are objects behind it:
    its length may exceed [sys.maxsize], or the memory that is left. *)
Definition presize (v : value) : result unit :=
  match v with
  | VRange start stop step =>
      let n := range_len start stop step in
      if maxsize <? n then Raise OverflowError
      else if can_allocate n then Ok tt
      else Raise MemoryError
  | _ => Ok tt
  end.

(** [set] and [frozenset] take the items one by one, until memory runs
    out. *)
Definition grow (v : value) : result unit :=
  match v with
  | VRange start stop step =>
      let n := range_len start stop step in
      if (n <=? maxsize) && can_allocate n then Ok tt
      else Raise MemoryError
  | _ => Ok tt
  end.

Definition py_list (v : value) : result value :=
  do _ <- presize v; do xs <- py_iter v; Ok (VList xs).

Definition py_tuple (v : value) : result value :=
  do _ <- presize v; do xs <- py_iter v; Ok (VTuple xs).

Definition py_set (v : value) : result value :=
  do _ <- grow v; do xs <- py_iter v; do s <- set_of xs; Ok (VSet s).

Definition py_frozenset (v : value) : result value :=
  do _ <- grow v; do xs <- py_iter v; do s <- set_of xs; Ok (VFrozenSet s).

(** ** [bytes] *)

(** [bytes(n)]: [n] must be an index ([OverflowError] otherwise) and not
    negative; the object must not exceed the largest size, and must fit in
    memory. *)
Definition zero_bytes (n : Z) : result value :=
  if (n <? - maxsize - 1) || (maxsize <? n) then Raise OverflowError
  else if n <? 0 then Raise ValueError
  else if maxsize - bytes_header <? n then Raise OverflowError
  else if can_allocate n then Ok (VBytes (repeat x00 (Z.to_nat n)))
  else Raise MemoryError.

Definition py_bytes (v : value) : result value :=
  match v with
  | VStr _ => Raise TypeError        (* string argument without an encoding *)
  | VBytes bs | VByteArray bs => Ok (VBytes bs)
  | VInt n => zero_bytes n
  | VBool v => zero_bytes (if v then 1 else 0)
  | VNoDefault | VNone | VFloat _ | VDecimal _ => Raise TypeError
  | _ =>
      do _ <- presize v; do xs <- py_iter v; do bs <- bytes_of_items xs;
      Ok (VBytes bs)
  end.

(** ** Decoding and integer literals *)

Definition py_decode (enc : string) (bs : list byte) : result text :=
  match bs with
  | [] => Ok []                      (* nothing to decode: no codec lookup *)
  | _ =>
      match codec_of_name enc with
      | Some c => decode_with c bs
      | None =>
          match extra_codec enc with
          | Some f => f bs
          | None => Raise LookupError
          end
      end
  end.

Definition is_space (c : N) : bool :=
  ((9 <=? c) && (c <=? 13))%N || (c =? 32)%N
  || ((127 <? c)%N && unicode_space c).

Definition digit_val (c : N) : option Z :=
  if ((48 <=? c) && (c <=? 57))%N then Some (Z.of_N c - 48)
  else if (127 <? c)%N then unicode_digit c
  else None.

Fixpoint skip_spaces (t : text) : text :=
  match t with
  | c :: r => if is_space c then skip_spaces r else t
  | [] => []
  end.

Definition strip (t : text) : text :=
  rev (skip_spaces (rev (skip_spaces t))).

(** Decimal digits, with single underscores allowed between digits.
    [after_digit] tells whether the previous character was a digit. *)
Fixpoint digits (acc : Z) (after_digit : bool) (t : text) : option Z :=
  match t with
  | [] => if after_digit then Some acc else None
  | c :: r =>
      match digit_val c with
      | Some d => digits (10 * acc + d) true r
      | None =>
          if (c =? 95)%N && after_digit then digits acc false r else None
      end
  end.

(** The number of digits in a text. *)
Definition counts_as_digit (c : N) : bool :=
  match digit_val c with Some _ => true | None => false end.

Definition digit_count (t : text) : Z :=
  Z.of_nat (length (List.filter counts_as_digit t)).

(** [int(t)] for a text [t], base 10.  A text with more digits than
    [max_str_digits] is not read. *)
Definition int_of_text (t : text) : option Z :=
  let s := strip t in
  if max_str_digits <? digit_count s then None
  else
    match s with
    | [] => None
    | c :: r =>
        if (c =? 43)%N then digits 0 false r                      (* + *)
        else if (c =? 45)%N then option_map Z.opp (digits 0 false r)  (* - *)
        else digits 0 false (c :: r)
    end.

Definition parse_int (t : text) : result value :=
  match int_of_text t with
  | Some z => Ok (VInt z)
  | None => Raise ValueError
  end.

(** ** [int] *)

Definition py_int (v : value) : result value :=
  match v with
  | VInt z => Ok (VInt z)
  | VBool v => Ok (VInt (if v then 1 else 0))
  | VFloat f => do z <- num_trunc (num_of_float f); Ok (VInt z)
  | VDecimal d => do z <- num_trunc (num_of_decimal d); Ok (VInt z)
  | VStr s => parse_int s
  | VBytes bs | VByteArray bs =>
      let t := text_of_bytes bs in
      if ascii_only t then parse_int t else Raise ValueError
  | _ => Raise TypeError
  end.

(** ** [float] *)

Definition float_of_Z (z : Z) : result spec_float :=
  match binary_normalize 53 1024 z 0 false with
  | S754_infinity _ => Raise OverflowError
  | f => Ok f
  end.

Definition py_float (v : value) : result value :=
  match v with
  | VFloat f => Ok (VFloat f)
  | VInt z => do f <- float_of_Z z; Ok (VFloat f)
  | VBool v => do f <- float_of_Z (if v then 1 else 0); Ok (VFloat f)
  | VDecimal d => do f <- float_of_decimal d; Ok (VFloat f)
  | VStr s => do f <- float_of_literal s; Ok (VFloat f)
  | VBytes bs | VByteArray bs =>
      let t := text_of_bytes bs in
      if ascii_only t then do f <- float_of_literal t; Ok (VFloat f)
      else Raise ValueError
  | _ => Raise TypeError
  end.

(** ** [decimal.Decimal] *)

Definition decimal_of_Z (z : Z) : decimal :=
  DFinite (z <? 0) (Z.to_N (Z.abs z)) 0.

Fixpoint trailing_zeros (m : positive) : nat :=
  match m with
  | xO m' => S (trailing_zeros m')
  | _ => O
  end.

(** [Decimal.from_float]: the exact value, from the reduced fraction. *)
Definition decimal_of_float (f : spec_float) : decimal :=
  match f with
  | S754_zero s => DFinite s 0 0
  | S754_infinity s => DInfinity s
  | S754_nan => DNaN false false 0
  | S754_finite s m e =>
      if 0 <=? e then DFinite s (Z.to_N (Zpos m * 2 ^ e)) 0
      else
        let shift := Z.min (Z.of_nat (trailing_zeros m)) (- e) in
        let k := - e - shift in
        DFinite s (Z.to_N (Z.shiftr (Zpos m) shift * 5 ^ k)) (- k)
  end.

Definition py_decimal (v : value) : result value :=
  match v with
  | VDecimal d => Ok (VDecimal d)
  | VInt z => Ok (VDecimal (decimal_of_Z z))
  | VBool v => Ok (VDecimal (decimal_of_Z (if v then 1 else 0)))
  | VFloat f => Ok (VDecimal (decimal_of_float f))
  | VStr s => do d <- decimal_of_literal s; Ok (VDecimal d)
  | VList xs | VTuple xs => do d <- decimal_of_sequence xs; Ok (VDecimal d)
  | _ => Raise TypeError
  end.

(** ** [str] *)

(** [str(obj)].  An integer of more digits than [max_str_digits] is not
    written: [ValueError]. *)
Definition py_str1 (v : value) : result text :=
  match v with
  | VStr s => Ok s
  | VNone => Ok (u "None")
  | VBool v => Ok (if v then u "True" else u "False")
  | VInt z =>
      if 10 ^ max_str_digits <=? Z.abs z then Raise ValueError
      else Ok (digits_of_Z z)
  | _ => repr v
  end.

(** [str(obj, enc)]: decoding, which only byte-like objects support. *)
Definition py_str2 (obj : value) (enc : string) : result value :=
  match obj with
  | VBytes bs | VByteArray bs => do t <- py_decode enc bs; Ok (VStr t)
  | _ => Raise TypeError
  end.

End Builtins.

End Py.

(** ** Objects and identity *)

Module Heap.
Import Py.

(** A reference.  Reference [0] is the [NoDefault] marker, a singleton that
    exists before any other object; the object with reference [S i] is the
    [i]-th cell of the heap. *)
Abbreviation loc := nat.
Abbreviation heap := (list value).

Definition NoDefault : loc := O.

Definition deref (h : heap) (l : loc) : option value :=
  match l with
  | O => Some VNoDefault
  | S i => h !! i
  end.

Definition alloc (h : heap) (v : value) : loc * heap :=
  (S (length h), h ++ [v]).

(** [x is NoDefault] *)
Definition is_NoDefault (l : loc) : bool := Nat.eqb l NoDefault.

(** A callable of one argument: it may raise, allocate and update. *)
Definition callable := loc -> heap -> result loc * heap.

(** A built-in constructor as a callable.  [ctor] gives the contents of the
    result; [same] tells for which arguments the constructor returns the
    argument itself instead of a new object.  A reference to no object does
    not occur in a program; the model answers it with [SystemError]. *)
Definition construct (ctor : value -> result value) (same : value -> bool)
  : callable :=
  fun a h =>
    match deref h a with
    | None => (Raise SystemError, h)
    | Some v =>
        if same v then (Ok a, h)
        else
          match ctor v with
          | Raise e => (Raise e, h)
          | Ok w => let (l, h') := alloc h w in (Ok l, h')
          end
    end.

Definition mutable (v : value) : bool :=
  match v with
  | VList _ | VSet _ | VDict _ | VByteArray _ => true
  | _ => false
  end.

Definition same_type (v w : value) : bool :=
  match v, w with
  | VList _, VList _ | VSet _, VSet _ | VDict _, VDict _
  | VByteArray _, VByteArray _ => true
  | _, _ => false
  end.

(** Any in-place update of the object [l] ([append], [add], [clear],
    [__setitem__], ...): its contents become [w], of the same type.  Objects
    of the immutable types have no such operation: the attempt raises
    ([AttributeError] here; the interpreter raises [AttributeError] or
    [TypeError], depending on the operation) and changes nothing. *)
Definition mutate (l : loc) (w : value) (h : heap) : result unit * heap :=
  match l with
  | O => (Raise AttributeError, h)
  | S i =>
      match h !! i with
      | None => (Raise SystemError, h)
      | Some v =>
          if mutable v && same_type v w then (Ok tt, <[i := w]> h)
          else (Raise AttributeError, h)
      end
  end.

End Heap.

(** ** Fields *)

Module Fields.
Import Py Heap.

(** The heap, and the arguments with which a field's [func] has been called
    so far, oldest first. *)
Record state : Type := State { objects : heap; calls : list loc }.

Definition M (A : Type) : Type := state -> result A * state.

Definition ret {A} (a : A) : M A := fun s => (Ok a, s).

Definition raise {A} (e : exn) : M A := fun s => (Raise e, s).

Definition bind {A B} (m : M A) (k : A -> M B) : M B :=
  fun s =>
    match m s with
    | (Ok a, s') => k a s'
    | (Raise e, s') => (Raise e, s')
    end.

Notation "'run' x <- e ; k" := (bind e (fun x => k))
  (at level 10, x name, e at level 100, k at level 200).

(** [f(a)] *)
Definition call (f : callable) (a : loc) : M loc :=
  fun s =>
    let (r, h) := f a (objects s) in
    (r, {| objects := h; calls := calls s ++ [a] |}).

(** How the class of a field defines [default]: as the class attribute
    [Field.default = NoDefault], which an instance attribute shadows, or as
    the property of [StandartContainer]. *)
Inductive default_kind : Type := Attribute | Property.

(** A field object: its class, and the entries [func], [default] and
    [_default] of its [__dict__]. *)
Record Field : Type := mkField {
  default_is : default_kind;
  func : callable;
  own_default : option loc;
  own__default : option loc
}.

(** [self._default]: the instance attribute, else
    [StandartContainer._default = NoDefault]. *)
Definition get__default (self : Field) : loc :=
  match own__default self with
  | Some l => l
  | None => NoDefault
  end.

(** The property [StandartContainer.default]. *)
Definition StandartContainer_default (self : Field) : M loc :=
  if negb (is_NoDefault (get__default self))
  then call (func self) (get__default self)
  else ret NoDefault.

(** Its setter. *)
Definition StandartContainer_default_setter (self : Field) (value : loc)
  : Field :=
  {| default_is := default_is self; func := func self;
     own_default := own_default self; own__default := Some value |}.

(** [self.default] *)
Definition get_default (self : Field) : M loc :=
  match default_is self with
  | Attribute =>
      ret (match own_default self with Some l => l | None => NoDefault end)
  | Property => StandartContainer_default self
  end.

(** [self.default = value] *)
Definition set_default (self : Field) (value : loc) : Field :=
  match default_is self with
  | Attribute =>
      {| default_is := default_is self; func := func self;
         own_default := Some value; own__default := own__default self |}
  | Property => StandartContainer_default_setter self value
  end.

(** [Field.__init__(self, func, default=NoDefault)], on a new object of a
    class whose [default] is [cls]. *)
Definition Field_init (cls : default_kind) (func : callable) (default : loc)
  : M Field :=
  let self := {| default_is := cls; func := func;
                 own_default := None; own__default := None |} in
  if negb (is_NoDefault default)
  then run v <- call func default; ret (set_default self v)
  else ret self.

(** The classes of the module. *)
Inductive kind : Type :=
| KInteger | KFloat | KDecimal | KBoolean | KBytes | KBinary
| KString (enc : string)
| KList | KTuple | KSet | KFrozenSet | KDict.

Definition is_container (k : kind) : bool :=
  match k with
  | KList | KTuple | KSet | KFrozenSet | KDict => true
  | _ => false
  end.

(** Whether the container that the class builds can be updated in place. *)
Definition builds_mutable (k : kind) : bool :=
  match k with
  | KList | KSet | KDict => true
  | _ => false
  end.

Section Classes.
Context `{Runtime}.

(** [String.func(obj, enc)] *)
Definition String_func (obj : value) (enc : string) : result value :=
  match obj with
  | VStr _ => Ok obj
  | _ =>
      match py_str2 obj enc with
      | Raise TypeError => do t <- py_str1 obj; Ok (VStr t)
      | r => r
      end
  end.

(** The class attribute [func], on contents.  [Binary.func] also emits a
    [DeprecationWarning], which is not part of the result. *)
Definition func_of (k : kind) : value -> result value :=
  match k with
  | KInteger => py_int
  | KFloat => py_float
  | KDecimal => py_decimal
  | KBoolean => py_bool
  | KBytes | KBinary => py_bytes
  | KString enc => fun obj => String_func obj enc
  | KList => py_list
  | KTuple => py_tuple
  | KSet => py_set
  | KFrozenSet => py_frozenset
  | KDict => py_dict
  end.

(** The arguments that [func] returns as they are.  CPython's constructors
    of immutable types hand back an argument that already has exactly the
    type they build ([tuple(t) is t], [frozenset(f) is f], and the same for
    [int], [float], [bool], [bytes] and [Decimal]), and [String.func]
    returns a text with [return obj].  [list], [set] and [dict] always build
    a new object. *)
Definition returns_argument (k : kind) (v : value) : bool :=
  match k, v with
  | KInteger, VInt _ | KFloat, VFloat _ | KDecimal, VDecimal _
  | KBoolean, VBool _ | KBytes, VBytes _ | KBinary, VBytes _
  | KString _, VStr _ | KTuple, VTuple _ | KFrozenSet, VFrozenSet _ => true
  | _, _ => false
  end.

(** The class attribute [func], on objects. *)
Definition class_func (k : kind) : callable :=
  construct (func_of k) (returns_argument k).

(** [SimpleField.__init__(self, default=NoDefault)] *)
Definition SimpleField_init (k : kind) (default : loc) : M Field :=
  Field_init Attribute (class_func k) default.

(** [String.__init__(self, default=NoDefault, enc='UTF-8')]; [None] stands
    for an omitted [enc]. *)
Definition String_init (default : loc) (enc : option string) : M Field :=
  let enc := match enc with Some e => e | None => "UTF-8"%string end in
  Field_init Attribute (class_func (KString enc)) default.

(** [StandartContainer.__init__(self, default=NoDefault)] *)
Definition StandartContainer_init (k : kind) (default : loc) : M Field :=
  Field_init Property (class_func k) default.

(** [K(default)] for a class [K] of the module. *)
Definition new (k : kind) (default : loc) : M Field :=
  match k with
  | KString enc => String_init default (Some enc)
  | KList | KTuple | KSet | KFrozenSet | KDict =>
      StandartContainer_init k default
  | _ => SimpleField_init k default
  end.

End Classes.

(** *** The descriptor *)

(** The [__dict__] of a structure instance. *)
Abbreviation instance := (gmap string loc).

Record FieldDescriptor : Type := mkDescriptor {
  name : string;
  field : Field
}.

(** [Field.contribute_to_structure(self, structure, name)], on the
    attributes of the structure class. *)
Definition contribute_to_structure (self : Field)
    (structure : gmap string FieldDescriptor) (name : string)
  : gmap string FieldDescriptor :=
  <[name := mkDescriptor name self]> structure.

(** Modelled from the spec: [FieldDescriptor.__get__], of descriptors.py,
    which is not part of the sources.  A stored value is returned as it is;
    otherwise the field resolves its default, and the marker means that the
    attribute is not set. *)
Definition descriptor_get (d : FieldDescriptor) (inst : instance) : M loc :=
  match inst !! name d with
  | Some v => ret v
  | None =>
      run v <- get_default (field d);
      if is_NoDefault v then raise AttributeError else ret v
  end.

(** Modelled from the spec: [FieldDescriptor.__set__], of descriptors.py,
    which is not part of the sources.  The value is coerced, then stored in
    the instance; a failed coercion stores nothing. *)
Definition descriptor_set (d : FieldDescriptor) (inst : instance)
    (value : loc) : M instance :=
  run v <- call (func (field d)) value;
  ret (<[name d := v]> inst).

End Fields.

Import Py Heap Fields.

(** The interpreter tables cut down to what this file defines: no codec
    besides UTF-8, ASCII and Latin-1, no digit or white space outside ASCII,
    no literal of [float] or [Decimal], an empty [repr], and memory for
    objects of up to 2^32 items.  The examples below run on it. *)
Definition bare_runtime : Runtime :=
  {| unicode_digit := fun _ => None;
     unicode_space := fun _ => false;
     extra_codec := fun _ => None;
     repr := fun _ => Ok [];
     can_allocate := fun n => n <=? 2 ^ 32;
     float_of_literal := fun _ => Raise ValueError;
     float_of_decimal := fun _ => Raise ValueError;
     decimal_of_literal := fun _ => Raise InvalidOperation;
     decimal_of_sequence := fun _ => Raise ValueError |}.

(** ** Vocabulary of the statements *)

(** [distinct l]: no element of [l] is equal to an earlier one. *)
Inductive distinct : list value -> Prop :=
| distinct_nil : distinct []
| distinct_snoc acc x :
    distinct acc -> contains acc x = false -> distinct (acc ++ [x]).

(** [has_type k w]: [w] is an instance of the type that [k] coerces to; a
    set has no two equal elements, all of them hashable. *)
Definition has_type (k : kind) (w : value) : Prop :=
  match k, w with
  | KInteger, VInt _ | KFloat, VFloat _ | KDecimal, VDecimal _
  | KBoolean, VBool _ | KBytes, VBytes _ | KBinary, VBytes _
  | KString _, VStr _ | KList, VList _ | KTuple, VTuple _
  | KDict, VDict _ => True
  | KSet, VSet s | KFrozenSet, VFrozenSet s =>
      distinct s /\ forallb hashable s = true
  | _, _ => False
  end.

(** The invariant of the set types: what [set] and [frozenset] objects
    contain is hashable and pairwise different. *)
Definition well_formed (v : value) : Prop :=
  match v with
  | VSet s | VFrozenSet s => distinct s /\ forallb hashable s = true
  | _ => True
  end.


Definition is_dict (v : value) : bool :=
  match v with VDict _ => true | _ => false end.


(** The types on which [int] is not defined. *)
Definition unsupported_by_int (v : value) : bool :=
  match v with
  | VNoDefault | VNone | VRange _ _ _ | VList _ | VTuple _ | VSet _
  | VFrozenSet _ | VDict _ => true
  | _ => false
  end.

(** Decimal notation: the character of a digit, and the number that a
    sequence of digits denotes. *)
Definition digit_char (d : Z) : N := Z.to_N (48 + d).

Definition is_digit (d : Z) : Prop := 0 <= d <= 9.

Definition number (ds : list Z) : Z :=
  fold_left (fun acc d => 10 * acc + d) ds 0.

Definition numeral (ds : list Z) : text := map digit_char ds.

(** The binary64 number that the literal [5.2] denotes. *)
Definition five_point_two : spec_float :=
  S754_finite false 5854679515581645 (-50).

(** The one-character strings of a text. *)
Definition chars (t : text) : list value := map (fun c => VStr [c]) t.

(** An item of a sequence of pairs: an iterable of two elements. *)
Definition as_pair (item : value) : option (value * value) :=
  match py_iter item with
  | Ok [k; v] => Some (k, v)
  | _ => None
  end.

(** The dictionary that successive assignments [d[k] = v] build. *)
Definition dict_of_pairs (ps : list (value * value)) : list (value * value) :=
  fold_left (fun acc p => dict_put acc (fst p) (snd p)) ps [].



Definition is_set (v : value) : bool :=
  match v with VSet _ | VFrozenSet _ => true | _ => false end.

(** [fits v]: a container with the items of [v] can be allocated.  Only a
    range can have more items than fit. *)
Definition fits `{Runtime} (v : value) : bool :=
  match v with
  | VRange start stop step =>
      let n := range_len start stop step in
      (n <=? maxsize) && can_allocate n
  | _ => true
  end.

(** [nan_free v]: no NaN, of [float] or of [Decimal], occurs in [v]. *)
Fixpoint nan_free (v : value) : bool :=
  match v with
  | VFloat S754_nan => false
  | VDecimal (DNaN _ _ _) => false
  | VList xs | VTuple xs | VSet xs | VFrozenSet xs => forallb nan_free xs
  | VDict kvs =>
      forallb (fun p : value * value =>
                 let (k, x) := p in nan_free k && nan_free x) kvs
  | _ => true
  end.

(** [x == x] *)
Definition self_equal (x : value) : Prop := py_eq x x = true.

(** [pair_item item p]: the item of an iterable from which [dict] takes
    the key and the value [p].  The item is an iterable of two elements in a
    fixed order (not a set); the key is hashable and equal to itself. *)
Definition pair_item (item : value) (p : value * value) : Prop :=
  is_set item = false /\ as_pair item = Some p /\
  hashable (fst p) = true /\ self_equal (fst p).

(** Induction on values, through the items of containers. *)
Section ValueInduction.
Variable P : value -> Prop.
Hypothesis HNoDefault : P VNoDefault.
Hypothesis HNone : P VNone.
Hypothesis HBool : forall v, P (VBool v).
Hypothesis HInt : forall z, P (VInt z).
Hypothesis HFloat : forall f, P (VFloat f).
Hypothesis HDecimal : forall d, P (VDecimal d).
Hypothesis HStr : forall s, P (VStr s).
Hypothesis HBytes : forall bs, P (VBytes bs).
Hypothesis HByteArray : forall bs, P (VByteArray bs).
Hypothesis HRange : forall start stop step, P (VRange start stop step).
Hypothesis HList : forall xs, Forall P xs -> P (VList xs).
Hypothesis HTuple : forall xs, Forall P xs -> P (VTuple xs).
Hypothesis HSet : forall xs, Forall P xs -> P (VSet xs).
Hypothesis HFrozenSet : forall xs, Forall P xs -> P (VFrozenSet xs).
Hypothesis HDict :
  forall kvs, Forall (fun p => P (fst p) /\ P (snd p)) kvs -> P (VDict kvs).

Fixpoint value_induction (v : value) : P v :=
  let fix items (xs : list value) : Forall P xs :=
    match xs with
    | [] => @List.Forall_nil _ P
    | x :: r => @List.Forall_cons _ P x r (value_induction x) (items r)
    end in
  match v with
  | VNoDefault => HNoDefault
  | VNone => HNone
  | VBool v => HBool v
  | VInt z => HInt z
  | VFloat f => HFloat f
  | VDecimal d => HDecimal d
  | VStr s => HStr s
  | VBytes bs => HBytes bs
  | VByteArray bs => HByteArray bs
  | VRange start stop step => HRange start stop step
  | VList xs => HList xs (items xs)
  | VTuple xs => HTuple xs (items xs)
  | VSet xs => HSet xs (items xs)
  | VFrozenSet xs => HFrozenSet xs (items xs)
  | VDict kvs =>
      HDict kvs
        ((fix entries (l : list (value * value))
            : Forall (fun p => P (fst p) /\ P (snd p)) l :=
            match l with
            | [] => @List.Forall_nil _ _
            | (k, x) :: r =>
                @List.Forall_cons _ _ (k, x) r
                  (conj (value_induction k) (value_induction x)) (entries r)
            end) kvs)
  end.

End ValueInduction.

(** Digit groups joined by single underscores, as in [1_000_000]. *)
Definition grouped (groups : list (list Z)) : text :=
  match groups with
  | [] => []
  | g :: rest => numeral g ++ concat (map (fun h => 95%N :: numeral h) rest)
  end.

(** ** Vocabulary of the further properties *)

Definition zero : num := NumFin 0 1.

(** White space of ASCII: tab, line feed, vertical tab, form feed, carriage
    return and space. *)
Definition ascii_space (c : N) : Prop := In c [9; 10; 11; 12; 13; 32]%N.


(** A Unicode scalar value: a code point up to U+10FFFF that is not a
    surrogate. *)
Definition unicode_scalar (c : N) : Prop :=
  (c <= 1114111 /\ ~ (55296 <= c <= 57343))%N.

(** The items that iterating over [bytes] yields. *)
Definition byte_items (bs : list byte) : list value :=
  map (fun x => VInt (Z.of_N (Byte.to_N x))) bs.

(** [d[k]]: the value of the first entry whose key is equal to [k]. *)
Fixpoint dict_get (kvs : list (value * value)) (k : value) : option value :=
  match kvs with
  | [] => None
  | (k', v') :: rest => if py_eq k' k then Some v' else dict_get rest k
  end.

(** * Properties *)

(** ** Sets keep one element of each class of equals *)

#[local] Hint Constructors distinct : core.

Ltac invert_ok :=
  repeat match goal with
  | H : Ok _ = Ok _ |- _ => injection H as H; subst
  | H : Raise _ = Ok _ |- _ => discriminate H
  | H : rbind ?r _ = Ok _ |- _ => destruct r eqn:?; simpl in H
  | H : match ?x with _ => _ end = Ok _ |- _ => destruct x eqn:?
  end.

Lemma set_add_distinct acc x : distinct acc -> distinct (set_add acc x).
Proof.
  intros Hd. unfold set_add. destruct (contains acc x) eqn:E; auto.
Qed.

Lemma fold_set_add_distinct xs acc :
  distinct acc -> distinct (fold_left set_add xs acc).
Proof.
  revert acc. induction xs as [|x xs IH]; intros acc Hd; simpl; auto.
  apply IH, set_add_distinct, Hd.
Qed.

Lemma distinct_app_l p q : distinct (p ++ q) -> distinct p.
Proof.
  revert p. induction q as [|x q IH] using rev_ind; intros p Hd.
  - now rewrite app_nil_r in Hd.
  - rewrite app_assoc in Hd. inversion Hd as [Hnil|acc y Hacc Hc Heq].
    + destruct (p ++ q); discriminate.
    + apply app_inj_tail in Heq as [-> ->]. auto.
Qed.

Lemma distinct_last acc x : distinct (acc ++ [x]) -> contains acc x = false.
Proof.
  intros Hd. inversion Hd as [Hnil|acc' y Hacc Hc Heq].
  - destruct acc; discriminate.
  - apply app_inj_tail in Heq as [-> ->]. exact Hc.
Qed.

(** Building a set from the elements of a set changes nothing. *)
Lemma fold_set_add_id l acc :
  distinct (acc ++ l) -> fold_left set_add l acc = acc ++ l.
Proof.
  revert acc. induction l as [|x l IH]; intros acc Hd; simpl.
  - now rewrite app_nil_r.
  - assert (Hx : contains acc x = false).
    { apply distinct_last, distinct_app_l with (q := l).
      now rewrite <- app_assoc. }
    unfold set_add at 2. rewrite Hx.
    rewrite IH; rewrite <- app_assoc; [reflexivity | exact Hd].
Qed.

Lemma set_add_incl acc x y :
  In y (set_add acc x) -> In y acc \/ y = x.
Proof.
  unfold set_add. destruct (contains acc x); [now left|].
  rewrite in_app_iff. simpl. intuition.
Qed.

Lemma fold_set_add_incl xs acc y :
  In y (fold_left set_add xs acc) -> In y acc \/ In y xs.
Proof.
  revert acc. induction xs as [|x xs IH]; intros acc Hy; simpl in *; auto.
  apply IH in Hy as [Hy|Hy]; [|now auto].
  apply set_add_incl in Hy as [Hy| ->]; auto.
Qed.

Lemma set_of_elements xs s :
  set_of xs = Ok s ->
  distinct s /\ forallb hashable s = true /\ (forall y, In y s -> In y xs).
Proof.
  unfold set_of. destruct (forallb hashable xs) eqn:Hh; [|discriminate].
  intros [= <-].
  assert (Hin : forall y, In y (fold_left set_add xs []) -> In y xs).
  { intros y Hy. apply fold_set_add_incl in Hy as [[]|Hy]; exact Hy. }
  repeat split; auto.
  - apply fold_set_add_distinct. constructor.
  - apply forallb_forall. intros y Hy.
    rewrite forallb_forall in Hh. auto.
Qed.

Lemma set_of_stable xs s : set_of xs = Ok s -> set_of s = Ok s.
Proof.
  intros Hs. apply set_of_elements in Hs as (Hd & Hh & _).
  unfold set_of. rewrite Hh. f_equal.
  now apply (fold_set_add_id s []).
Qed.

(** ** The results of the class functions *)

Section Results.
Context `{Runtime}.

Lemma func_of_has_type k v w : func_of k v = Ok w -> has_type k w.
Proof.
  destruct k; simpl; intros Hw.
  - destruct v; simpl in Hw; unfold parse_int in *; invert_ok; exact I.
  - destruct v; simpl in Hw; unfold float_of_Z in *; invert_ok; exact I.
  - destruct v; simpl in Hw; invert_ok; exact I.
  - injection Hw as <-. exact I.
  - destruct v; simpl in Hw; unfold zero_bytes in *; invert_ok; exact I.
  - destruct v; simpl in Hw; unfold zero_bytes in *; invert_ok; exact I.
  - unfold String_func, py_str2 in Hw. destruct v; invert_ok; exact I.
  - unfold py_list in Hw. invert_ok. exact I.
  - unfold py_tuple in Hw. invert_ok. exact I.
  - unfold py_set in Hw. invert_ok.
    match goal with E : set_of _ = Ok _ |- _ =>
      apply set_of_elements in E as (? & ? & _) end. now split.
  - unfold py_frozenset in Hw. invert_ok.
    match goal with E : set_of _ = Ok _ |- _ =>
      apply set_of_elements in E as (? & ? & _) end. now split.
  - unfold py_dict in Hw. destruct v; simpl in Hw; invert_ok; exact I.
Qed.

Lemma func_of_typed k w : has_type k w -> func_of k w = Ok w.
Proof.
  destruct k, w; simpl; try contradiction; try reflexivity.
  - intros [Hd Hh]. unfold py_set. simpl.
    unfold set_of. rewrite Hh. simpl. now rewrite (fold_set_add_id xs []).
  - intros [Hd Hh]. unfold py_frozenset. simpl.
    unfold set_of. rewrite Hh. simpl. now rewrite (fold_set_add_id xs []).
Qed.

End Results.

(** ** Objects *)

Lemma deref_alloc_old h w l v :
  deref h l = Some v -> deref (h ++ [w]) l = Some v.
Proof.
  destruct l as [|i]; simpl; [trivial|]. intros Hl.
  rewrite lookup_app_l; [exact Hl|]. eapply lookup_lt_Some, Hl.
Qed.

Lemma deref_alloc_new h w : deref (h ++ [w]) (S (length h)) = Some w.
Proof. simpl. apply list_lookup_middle. reflexivity. Qed.

Lemma deref_bound h l v : deref h l = Some v -> (l <= length h)%nat.
Proof.
  destruct l as [|i]; simpl; [lia|]. intros Hl.
  apply lookup_lt_Some in Hl. lia.
Qed.

Lemma construct_eq ctor same a h v :
  deref h a = Some v ->
  construct ctor same a h =
    if same v then (Ok a, h)
    else match ctor v with
         | Raise e => (Raise e, h)
         | Ok w => (Ok (S (length h)), h ++ [w])
         end.
Proof. intros Ha. unfold construct. rewrite Ha. reflexivity. Qed.

Lemma construct_not_marker ctor same a h r h' :
  a <> NoDefault -> construct ctor same a h = (Ok r, h') -> r <> NoDefault.
Proof.
  intros Ha. unfold construct, alloc.
  destruct (deref h a); [|discriminate].
  destruct (same v); [now intros [= <- <-]|].
  destruct (ctor v); [|discriminate].
  intros [= <- <-]. discriminate.
Qed.

Lemma construct_allocated ctor same a h r h' :
  construct ctor same a h = (Ok r, h') -> exists v, deref h a = Some v.
Proof.
  unfold construct. destruct (deref h a); [eauto | discriminate].
Qed.

Lemma is_NoDefault_false l : l <> NoDefault -> is_NoDefault l = false.
Proof. intros Hl. destruct l; [now destruct Hl | reflexivity]. Qed.

(** ** Construction without a default *)

Section Construction.
Context `{Runtime}.

(** An argument that [func] returns as it is has the type of the class. *)
Lemma returns_argument_has_type k v :
  returns_argument k v = true -> well_formed v -> has_type k v.
Proof. destruct k, v; simpl; try discriminate; auto. Qed.

Lemma returns_argument_typed k v :
  returns_argument k v = true -> well_formed v -> func_of k v = Ok v.
Proof. intros Hs Hwf. now apply func_of_typed, returns_argument_has_type. Qed.

(** C10.  A field that is constructed without a default (the marker is the
    default) is constructed without any call of the coercion function and
    without any change of the heap; this holds for an arbitrary function and
    for every class of the module.  The resolved default of such a field is
    the marker itself, for a plain field and for a container field alike, and
    no call is made to resolve it; reading the attribute on an instance
    where it is not set then fails with the error of an unset attribute. *)
Theorem no_default_no_coercion (cls : default_kind) (f : callable)
    (k : kind) (s : state) :
  let fld := mkField cls f None None in
  Field_init cls f NoDefault s = (Ok fld, s) /\
  new k NoDefault s
    = (Ok (mkField (if is_container k then Property else Attribute)
                   (class_func k) None None), s) /\
  (forall s', get_default fld s' = (Ok NoDefault, s')) /\
  (forall nm inst s',
     descriptor_get (mkDescriptor nm fld) (delete nm inst) s'
     = (Raise AttributeError, s')).
Proof.
  intros fld. repeat split.
  - destruct k; reflexivity.
  - intros s'. destruct cls; reflexivity.
  - intros nm inst s'. unfold descriptor_get. simpl.
    rewrite lookup_delete_eq. destruct cls; reflexivity.
Qed.

(** ** Construction with a default *)

Lemma Field_init_eq cls f d s :
  d <> NoDefault ->
  Field_init cls f d s =
    match f d (objects s) with
    | (Ok v, h) =>
        (Ok (set_default (mkField cls f None None) v),
         State h (calls s ++ [d]))
    | (Raise e, h) => (Raise e, State h (calls s ++ [d]))
    end.
Proof.
  intros Hd. unfold Field_init. rewrite (is_NoDefault_false _ Hd). simpl.
  unfold bind, call. destruct (f d (objects s)) as [[v|e] h]; reflexivity.
Qed.

Lemma new_eq k d s :
  new k d s
  = Field_init (if is_container k then Property else Attribute)
               (class_func k) d s.
Proof. destruct k; reflexivity. Qed.

(** C3.  A plain (scalar) field that is constructed with a default other
    than the marker calls the coercion function exactly once, on that
    default, and stores the result as its [default].  Resolving the default
    afterwards returns the stored object and calls nothing; so does a read of
    the attribute on an instance where it is not set (the stored object is
    never the marker when the function is one of the module's classes). *)
Theorem scalar_default_coerced_once (f : callable) (d : loc) (s s' : state)
    (fld : Field) :
  d <> NoDefault ->
  Field_init Attribute f d s = (Ok fld, s') ->
  exists v,
    f d (objects s) = (Ok v, objects s') /\
    calls s' = calls s ++ [d] /\
    fld = mkField Attribute f (Some v) None /\
    (forall s1, get_default fld s1 = (Ok v, s1)) /\
    (v <> NoDefault ->
     forall nm inst s1,
       descriptor_get (mkDescriptor nm fld) (delete nm inst) s1
       = (Ok v, s1)) /\
    (forall k, f = class_func k -> v <> NoDefault).
Proof.
  intros Hd Hinit. rewrite (Field_init_eq _ _ _ _ Hd) in Hinit.
  destruct (f d (objects s)) as [[v|e] h] eqn:Hf; [|discriminate].
  injection Hinit as <- <-. exists v. simpl. repeat split.
  - intros Hv nm inst s1. unfold descriptor_get. simpl.
    rewrite lookup_delete_eq. unfold bind, get_default, ret. simpl.
    now rewrite (is_NoDefault_false _ Hv).
  - intros k ->. eapply construct_not_marker; eauto.
Qed.

(** C4.  When the coercion function raises on the supplied default,
    construction raises the same error, after that single call: for an
    arbitrary function and either kind of class, and hence for every class of
    the module whose function rejects the contents of the default (a
    well-formed value).  A field
    that was constructed is one whose default was coerced successfully. *)
Theorem invalid_default_fails_at_construction (cls : default_kind)
    (f : callable) (d : loc) (s : state) :
  d <> NoDefault ->
  (forall e h, f d (objects s) = (Raise e, h) ->
     Field_init cls f d s = (Raise e, State h (calls s ++ [d]))) /\
  (forall k v e, deref (objects s) d = Some v -> well_formed v ->
     func_of k v = Raise e ->
     new k d s = (Raise e, State (objects s) (calls s ++ [d]))) /\
  (forall fld s', Field_init cls f d s = (Ok fld, s') ->
     exists v, f d (objects s) = (Ok v, objects s')).
Proof.
  intros Hd. repeat split.
  - intros e h Hf. rewrite (Field_init_eq _ _ _ _ Hd), Hf. reflexivity.
  - intros k v e Hv Hwf Hf. rewrite new_eq, (Field_init_eq _ _ _ _ Hd).
    unfold class_func. rewrite (construct_eq _ _ _ _ _ Hv), Hf.
    destruct (returns_argument k v) eqn:Hsame; [|reflexivity].
    rewrite (returns_argument_typed _ _ Hsame Hwf) in Hf. discriminate Hf.
  - intros fld s' Hinit. rewrite (Field_init_eq _ _ _ _ Hd) in Hinit.
    destruct (f d (objects s)) as [[v|e] h]; [|discriminate].
    injection Hinit as <- <-. eauto.
Qed.

End Construction.

(** ** Container fields *)

Section Containers.
Context `{Runtime}.

Lemma builds_mutable_fresh k v :
  builds_mutable k = true -> returns_argument k v = false.
Proof. destruct k, v; simpl; congruence. Qed.





(** Resolving the default of a container field, and reading the attribute
    where it is not set, is a call of [func] on the stored object. *)
Lemma container_default_is_call k c s :
  c <> NoDefault ->
  get_default (mkField Property (class_func k) None (Some c)) s
  = call (class_func k) c s.
Proof.
  intros Hc. destruct c as [|c]; [now destruct Hc|]. reflexivity.
Qed.

Lemma container_read_is_call k c nm inst s :
  c <> NoDefault ->
  descriptor_get
    (mkDescriptor nm (mkField Property (class_func k) None (Some c)))
    (delete nm inst) s
  = call (class_func k) c s.
Proof.
  intros Hc. unfold descriptor_get. simpl. rewrite lookup_delete_eq.
  unfold bind. rewrite (container_default_is_call _ _ _ Hc).
  unfold call.
  destruct (class_func k c (objects s)) as [[r|e] h] eqn:Hf; [|reflexivity].
  apply construct_not_marker in Hf; [|exact Hc].
  now rewrite (is_NoDefault_false _ Hf).
Qed.

(** Construction of a container field with a default. *)
Lemma container_construction k d v s fld s' :
  is_container k = true -> d <> NoDefault ->
  deref (objects s) d = Some v -> well_formed v ->
  new k d s = (Ok fld, s') ->
  exists w c,
    func_of k v = Ok w /\ has_type k w /\
    class_func k d (objects s) = (Ok c, objects s') /\
    calls s' = calls s ++ [d] /\
    fld = mkField Property (class_func k) None (Some c) /\
    c <> NoDefault /\
    deref (objects s') c = Some w /\
    deref (objects s') d = Some v /\
    (builds_mutable k = true -> c <> d) /\
    (if returns_argument k v then c = d /\ w = v else c <> d).
Proof.
  intros Hk Hd Hv Hwf Hnew.
  rewrite new_eq, Hk, (Field_init_eq _ _ _ _ Hd) in Hnew.
  destruct (class_func k d (objects s)) as [[c|e] h] eqn:Hf; [|discriminate].
  injection Hnew as <- <-. simpl.
  assert (Hc : c <> NoDefault) by (eapply construct_not_marker; eauto).
  unfold class_func in Hf. rewrite (construct_eq _ _ _ _ _ Hv) in Hf.
  destruct (returns_argument k v) eqn:Hsame.
  - injection Hf as <- <-. exists v, d.
    pose proof (returns_argument_has_type _ _ Hsame Hwf) as Ht.
    repeat split; auto using func_of_typed.
    intros Hm. rewrite (builds_mutable_fresh _ v Hm) in Hsame.
      discriminate.
  - destruct (func_of k v) as [w|e] eqn:Hw; [|discriminate].
    injection Hf as <- <-. exists w, (S (length (objects s))).
    assert (Hfresh : S (length (objects s)) <> d)
      by (intros Heq; apply deref_bound in Hv; lia).
    repeat split; eauto using func_of_has_type, deref_alloc_new,
      deref_alloc_old.
Qed.

(** C2, as the code has it.  A container field that is constructed with a
    default calls [func] once on that default and stores the result: the
    stored object holds the coerced contents.  Where [func] returns its
    argument ([Tuple] given a tuple, [FrozenSet] given a frozenset) the
    stored object is the supplied one, with the contents it has; otherwise,
    and always for [List], [Set] and [Dict], it is a new object.  Every
    resolution of the default, and every read of the attribute on an
    instance where it is not set, is a call of [func] on the stored
    object. *)
Theorem container_default_stored_coerced (k : kind) (d : loc) (v : value)
    (s s' : state) (fld : Field) :
  is_container k = true -> d <> NoDefault ->
  deref (objects s) d = Some v -> well_formed v ->
  new k d s = (Ok fld, s') ->
  exists w c,
    func_of k v = Ok w /\
    class_func k d (objects s) = (Ok c, objects s') /\
    calls s' = calls s ++ [d] /\
    own__default fld = Some c /\ own_default fld = None /\
    deref (objects s') c = Some w /\
    (if returns_argument k v then c = d /\ w = v else c <> d) /\
    (builds_mutable k = true -> c <> d) /\
    (forall s1, get_default fld s1 = call (class_func k) c s1) /\
    (forall nm inst s1,
       descriptor_get (mkDescriptor nm fld) (delete nm inst) s1
       = call (class_func k) c s1).
Proof.
  intros Hk Hd Hv Hwf Hnew.
  destruct (container_construction _ _ _ _ _ _ Hk Hd Hv Hwf Hnew)
    as (w & c & Hw & _ & Hf & Hcalls & -> & Hc & Hcw & _ & Hmut & Hsame).
  exists w, c. repeat split; auto.
  - intros s1. now apply container_default_is_call.
  - intros nm inst s1. now apply container_read_is_call.
Qed.




End Containers.

(** ** Equality of a value with itself *)

Lemma seq_eqb_refl {A} (eqb : A -> A -> bool) (l : list A) :
  (forall x, eqb x x = true) -> seq_eqb eqb l l = true.
Proof.
  intros Hr. induction l as [|x l IH]; simpl; [reflexivity|].
  now rewrite Hr, IH.
Qed.

Lemma num_eq_refl n : n <> NumNaN -> num_eq n n = true.
Proof.
  destruct n as [|s|n d]; simpl; intros Hn.
  - now destruct Hn.
  - now destruct s.
  - apply Z.eqb_refl.
Qed.

Lemma num_of_float_nan f : f <> S754_nan -> num_of_float f <> NumNaN.
Proof.
  destruct f; simpl; try discriminate; [easy|].
  unfold scale. now destruct (0 <=? e).
Qed.

Lemma num_of_decimal_nan d :
  (forall s g p, d <> DNaN s g p) -> num_of_decimal d <> NumNaN.
Proof.
  destruct d; simpl; try discriminate.
  - unfold scale. now destruct (0 <=? exp).
  - intros Hd. now destruct (Hd neg signaling payload).
Qed.

Lemma py_eq_items xs :
  Forall self_equal xs -> py_eq (VList xs) (VList xs) = true.
Proof.
  induction 1 as [|x xs Hx _ IH]; [reflexivity|].
  simpl. unfold self_equal in Hx. rewrite Hx. exact IH.
Qed.

Lemma py_eq_elements xs ys :
  py_eq (VSet xs) (VSet ys)
  = forallb (fun x => existsb (fun y => py_eq x y) ys) xs
    && forallb (fun y => existsb (fun x => py_eq x y) xs) ys.
Proof.
  simpl. f_equal.
  - induction xs as [|x xs IH]; [reflexivity|].
    simpl. rewrite <- IH. f_equal.
    clear. induction ys as [|y ys IH]; [reflexivity|].
    simpl. now rewrite <- IH.
  - induction ys as [|y ys IH]; [reflexivity|].
    simpl. rewrite <- IH. f_equal.
    clear. induction xs as [|x xs IH]; [reflexivity|].
    simpl. now rewrite <- IH.
Qed.

Lemma py_eq_entries xs ys :
  py_eq (VDict xs) (VDict ys)
  = (length xs =? length ys)%nat
    && forallb (fun p : value * value =>
                  existsb (fun q : value * value =>
                             py_eq (fst p) (fst q) && py_eq (snd p) (snd q))
                          ys) xs.
Proof.
  simpl. f_equal.
  induction xs as [|[k x] xs IH]; [reflexivity|].
  simpl. rewrite <- IH. f_equal.
  clear. induction ys as [|[k' x'] ys IH]; [reflexivity|].
  simpl. now rewrite <- IH.
Qed.

Lemma existsb_self {A} (f : A -> A -> bool) (l : list A) :
  Forall (fun x => f x x = true) l ->
  forallb (fun x => existsb (fun y => f x y) l) l = true /\
  forallb (fun y => existsb (fun x => f x y) l) l = true.
Proof.
  intros Hall. split; apply forallb_forall; intros x Hx;
    apply existsb_exists; exists x; split; auto;
    rewrite List.Forall_forall in Hall; auto.
Qed.

(** A value without a NaN is equal to itself. *)
Lemma py_eq_refl v : nan_free v = true -> self_equal v.
Proof.
  unfold self_equal.
  induction v as [| |v|z|f|d|s|bs|bs|a1 a2 a3|xs IH|xs IH|xs IH|xs IH|kvs IH]
    using value_induction; intros Hn; try reflexivity.
  - now destruct v.
  - simpl. apply Z.eqb_refl.
  - apply (num_eq_refl (num_of_float f)), num_of_float_nan.
    intros ->. discriminate Hn.
  - apply (num_eq_refl (num_of_decimal d)), num_of_decimal_nan.
    intros s g p ->. discriminate Hn.
  - apply (seq_eqb_refl N.eqb), N.eqb_refl.
  - apply (seq_eqb_refl Byte.eqb). intros x. now apply Byte.byte_dec_lb.
  - apply (seq_eqb_refl Byte.eqb). intros x. now apply Byte.byte_dec_lb.
  - simpl. unfold range_eqb. rewrite !Z.eqb_refl. simpl.
    now rewrite !orb_true_r.
  - assert (Hall : Forall self_equal xs).
    { simpl in Hn. rewrite forallb_forall in Hn.
      rewrite List.Forall_forall in IH |- *. intros x Hx.
      apply IH; auto. }
    now apply py_eq_items.
  - assert (Hall : Forall self_equal xs).
    { simpl in Hn. rewrite forallb_forall in Hn.
      rewrite List.Forall_forall in IH |- *. intros x Hx.
      apply IH; auto. }
    exact (py_eq_items xs Hall).
  - assert (Hall : Forall self_equal xs).
    { simpl in Hn. rewrite forallb_forall in Hn.
      rewrite List.Forall_forall in IH |- *. intros x Hx.
      apply IH; auto. }
    rewrite py_eq_elements.
    destruct (existsb_self py_eq xs Hall) as (-> & ->). reflexivity.
  - assert (Hall : Forall self_equal xs).
    { simpl in Hn. rewrite forallb_forall in Hn.
      rewrite List.Forall_forall in IH |- *. intros x Hx.
      apply IH; auto. }
    change (py_eq (VSet xs) (VSet xs) = true).
    rewrite py_eq_elements.
    destruct (existsb_self py_eq xs Hall) as (-> & ->). reflexivity.
  - rewrite py_eq_entries, Nat.eqb_refl. simpl.
    simpl in Hn. rewrite forallb_forall in Hn.
    rewrite List.Forall_forall in IH.
    apply forallb_forall. intros [k x] Hp.
    apply existsb_exists. exists (k, x). split; [exact Hp|].
    specialize (Hn _ Hp). specialize (IH _ Hp). simpl in *.
    apply andb_true_iff in Hn as [Hk Hx]. destruct IH as [IHk IHx].
    now rewrite IHk, IHx.
Qed.

(** ** The coercions of the classes *)

Section Coercions.
Context `{Runtime}.

(** C9, as the code has it.  For every class of the module, a value that
    its coercion function returned is returned unchanged when the function
    is applied to it: [func(func(x))] is [func(x)] wherever [func(x)] is
    defined.  The two are equal ([==]) when no NaN occurs in the value; a
    NaN is returned unchanged as well, but it is not equal to itself. *)
Theorem coercion_stable (k : kind) (v w : value) :
  func_of k v = Ok w ->
  exists w',
    func_of k w = Ok w' /\ w' = w /\
    (nan_free w = true -> py_eq w' w = true).
Proof.
  intros Hw. exists w. split; [|split; [reflexivity|]].
  - apply func_of_typed. eapply func_of_has_type, Hw.
  - apply py_eq_refl.
Qed.

(** C6.  The function of [Bytes] (and of [Binary]) returns the bytes of a
    [bytes] or [bytearray] argument as a [bytes] value, and raises
    [TypeError] on every text string.  Through a field, an assignment of a
    text string raises [TypeError] and writes nothing, neither to the heap
    nor to the instance. *)
Theorem Bytes_accepts_bytes_rejects_text (bs : list byte) (t : text) :
  func_of KBytes (VBytes bs) = Ok (VBytes bs) /\
  func_of KBytes (VByteArray bs) = Ok (VBytes bs) /\
  func_of KBytes (VStr t) = Raise TypeError /\
  func_of KBinary = func_of KBytes /\
  (forall l s own nm inst,
     deref (objects s) l = Some (VStr t) ->
     descriptor_set
       (mkDescriptor nm (mkField Attribute (class_func KBytes) own None))
       inst l s
     = (Raise TypeError, State (objects s) (calls s ++ [l]))).
Proof.
  repeat split.
  intros l s own nm inst Hl. unfold descriptor_set, bind, call. simpl.
  unfold class_func. now rewrite (construct_eq _ _ _ _ _ Hl).
Qed.

Lemma py_decode_utf8 bs : py_decode "UTF-8" bs = decode_with UTF8 bs.
Proof. destruct bs; reflexivity. Qed.


End Coercions.

(** ** [int] *)

Section Integers.
Context `{Runtime}.

Lemma signed_mul s a c : signed s (a * c) = signed s a * c.
Proof. destruct s; simpl; ring. Qed.

(** [int] of a finite float is its integer part. *)
Lemma trunc_finite s m e :
  exists q,
    num_trunc (num_of_float (S754_finite s m e)) = Ok (signed s q) /\
    0 <= q /\
    q * 2 ^ Z.max 0 (- e) <= Zpos m * 2 ^ Z.max 0 e
      < (q + 1) * 2 ^ Z.max 0 (- e).
Proof.
  unfold num_of_float, scale. destruct (0 <=? e) eqn:He.
  - apply Z.leb_le in He. exists (Zpos m * 2 ^ e). simpl num_trunc.
    rewrite Z.quot_1_r, signed_mul.
    rewrite (Z.max_l 0 (- e)), (Z.max_r 0 e) by lia.
    assert (0 < 2 ^ e) by (apply Z.pow_pos_nonneg; lia).
    repeat split; simpl; nia.
  - apply Z.leb_gt in He. exists (Zpos m / 2 ^ (- e)). simpl num_trunc.
    rewrite (Z.max_r 0 (- e)), (Z.max_l 0 e) by lia.
    assert (HD : 0 < 2 ^ (- e)) by (apply Z.pow_pos_nonneg; lia).
    split.
    + f_equal. destruct s; simpl.
      * change (Z.neg m) with (- Z.pos m).
        rewrite Z.quot_opp_l by lia. f_equal.
        apply Z.quot_div_nonneg; lia.
      * apply Z.quot_div_nonneg; lia.
    + pose proof (Z.mul_div_le (Zpos m) _ HD).
      pose proof (Z.mul_succ_div_gt (Zpos m) _ HD).
      split; [apply Z.div_pos; lia|]. simpl (2 ^ 0). nia.
Qed.

Lemma digit_val_digit_char d : is_digit d -> digit_val (digit_char d) = Some d.
Proof.
  intros Hd. unfold digit_val, digit_char.
  replace ((48 <=? Z.to_N (48 + d))%N && (Z.to_N (48 + d) <=? 57)%N)
    with true.
  - f_equal. unfold is_digit in Hd. lia.
  - symmetry. apply andb_true_intro. unfold is_digit in Hd.
    split; apply N.leb_le; lia.
Qed.

Lemma is_space_digit_char d : is_digit d -> is_space (digit_char d) = false.
Proof.
  intros Hd. unfold is_space, digit_char. unfold is_digit in Hd.
  replace (Z.to_N (48 + d) <=? 13)%N with false
    by (symmetry; apply N.leb_gt; lia).
  replace (Z.to_N (48 + d) =? 32)%N with false
    by (symmetry; apply N.eqb_neq; lia).
  replace (127 <? Z.to_N (48 + d))%N with false
    by (symmetry; apply N.ltb_ge; lia).
  now rewrite andb_false_r.
Qed.

Lemma digits_numeral ds acc after :
  Forall is_digit ds -> ds <> [] \/ after = true ->
  digits acc after (numeral ds)
  = Some (fold_left (fun a d => 10 * a + d) ds acc).
Proof.
  intros Hds. revert acc after.
  induction Hds as [|d ds Hd Hds IH]; intros acc after Hne.
  - destruct Hne as [Hne | ->]; [now destruct Hne | reflexivity].
  - simpl. rewrite (digit_val_digit_char _ Hd). apply IH. now right.
Qed.

(** Nothing is stripped from a text that neither starts nor ends with
    white space. *)
Lemma strip_id c r a l :
  c :: r = l ++ [a] -> is_space c = false -> is_space a = false ->
  strip (c :: r) = c :: r.
Proof.
  intros Heq Hc Ha. unfold strip.
  assert (Hs : skip_spaces (c :: r) = c :: r) by (simpl; now rewrite Hc).
  rewrite Hs, Heq, rev_unit. simpl. rewrite Ha. simpl.
  now rewrite rev_involutive.
Qed.

Lemma numeral_last ds :
  Forall is_digit ds -> ds <> [] ->
  exists l d, is_digit d /\ numeral ds = l ++ [digit_char d].
Proof.
  intros Hds Hne. destruct (exists_last Hne) as (ds' & d & ->).
  exists (numeral ds'), d. split.
  - apply Forall_app in Hds as [_ Hd]. now inversion Hd.
  - unfold numeral. now rewrite map_app.
Qed.

Lemma counts_as_digit_digit_char d :
  is_digit d -> counts_as_digit (digit_char d) = true.
Proof.
  intros Hd. unfold counts_as_digit. now rewrite (digit_val_digit_char _ Hd).
Qed.

Lemma digit_count_cons c t :
  digit_count (c :: t)
  = (if counts_as_digit c then 1 else 0) + digit_count t.
Proof.
  unfold digit_count. simpl. destruct (counts_as_digit c); simpl length; lia.
Qed.

Lemma digit_count_app s t : digit_count (s ++ t) = digit_count s + digit_count t.
Proof.
  unfold digit_count. rewrite List.filter_app, length_app. lia.
Qed.

Lemma digit_count_numeral ds :
  Forall is_digit ds -> digit_count (numeral ds) = Z.of_nat (length ds).
Proof.
  induction 1 as [|d ds Hd _ IH]; [reflexivity|].
  change (numeral (d :: ds)) with (digit_char d :: numeral ds).
  rewrite digit_count_cons, (counts_as_digit_digit_char _ Hd), IH.
  simpl length. lia.
Qed.

(** [int] of a text without white space at its ends. *)
Lemma int_of_text_bare c r a l :
  c :: r = l ++ [a] -> is_space c = false -> is_space a = false ->
  int_of_text (c :: r)
  = if max_str_digits <? digit_count (c :: r) then None
    else if (c =? 43)%N then digits 0 false r
    else if (c =? 45)%N then option_map Z.opp (digits 0 false r)
    else digits 0 false (c :: r).
Proof.
  intros Hl Hc Ha. unfold int_of_text.
  now rewrite (strip_id _ _ _ _ Hl Hc Ha).
Qed.

Lemma int_of_numeral ds :
  Forall is_digit ds -> ds <> [] ->
  (Z.of_nat (length ds) <= max_str_digits ->
     int_of_text (numeral ds) = Some (number ds) /\
     int_of_text (43%N :: numeral ds) = Some (number ds) /\
     int_of_text (45%N :: numeral ds) = Some (- number ds)) /\
  (max_str_digits < Z.of_nat (length ds) ->
     int_of_text (numeral ds) = None /\
     int_of_text (43%N :: numeral ds) = None /\
     int_of_text (45%N :: numeral ds) = None).
Proof.
  intros Hds Hne.
  destruct (numeral_last ds Hds Hne) as (l & a & Ha & Hl).
  pose proof (is_space_digit_char _ Ha) as Hsa.
  pose proof (digits_numeral ds 0 false Hds (or_introl Hne)) as Hdig.
  pose proof (digit_count_numeral ds Hds) as Hcount.
  assert (Hsign : forall c, counts_as_digit c = false ->
            digit_count (c :: numeral ds) = Z.of_nat (length ds))
    by (intros c Hc; rewrite digit_count_cons, Hc, Hcount; lia).
  assert (E0 : int_of_text (numeral ds)
               = if max_str_digits <? Z.of_nat (length ds) then None
                 else Some (number ds)).
  { destruct ds as [|d ds]; [now destruct Hne|].
    pose proof (Forall_inv Hds) as Hd.
    change (numeral (d :: ds)) with (digit_char d :: numeral ds) in *.
    rewrite (int_of_text_bare _ _ _ l Hl (is_space_digit_char _ Hd) Hsa).
    rewrite Hcount. unfold is_digit in Hd.
    replace (digit_char d =? 43)%N with false
      by (symmetry; apply N.eqb_neq; unfold digit_char; lia).
    replace (digit_char d =? 45)%N with false
      by (symmetry; apply N.eqb_neq; unfold digit_char; lia).
    now rewrite Hdig. }
  assert (Ep : int_of_text (43%N :: numeral ds)
               = if max_str_digits <? Z.of_nat (length ds) then None
                 else Some (number ds)).
  { rewrite (int_of_text_bare 43%N (numeral ds) (digit_char a) (43%N :: l));
      [| now rewrite Hl | reflexivity | exact Hsa].
    rewrite (Hsign 43%N eq_refl). change (43 =? 43)%N with true.
    now rewrite Hdig. }
  assert (Em : int_of_text (45%N :: numeral ds)
               = if max_str_digits <? Z.of_nat (length ds) then None
                 else Some (- number ds)).
  { rewrite (int_of_text_bare 45%N (numeral ds) (digit_char a) (45%N :: l));
      [| now rewrite Hl | reflexivity | exact Hsa].
    rewrite (Hsign 45%N eq_refl). change (45 =? 43)%N with false.
    change (45 =? 45)%N with true. now rewrite Hdig. }
  rewrite E0, Ep, Em. split; intros Hlen.
  - now replace (max_str_digits <? Z.of_nat (length ds)) with false
      by (symmetry; apply Z.ltb_ge; lia).
  - now replace (max_str_digits <? Z.of_nat (length ds)) with true
      by (symmetry; apply Z.ltb_lt; lia).
Qed.

End Integers.

(** [five_point_two] is a binary64 number, and no binary64 number is nearer
    to 26/5: it is less than half a unit in the last place away. *)
Lemma five_point_two_nearest :
  valid_binary 53 1024 five_point_two = true /\
  2 * Z.abs (5 * 5854679515581645 - 26 * 2 ^ 50) < 5.
Proof. split; [reflexivity | vm_compute; reflexivity]. Qed.

Section IntegerField.
Context `{Runtime}.

(** C7, as the code has it.  The function of [Integer] maps a finite float
    to its integer part (rounding toward zero), raises [OverflowError] on an
    infinity and [ValueError] on a NaN; it maps a decimal numeral of at most
    [max_str_digits] digits, with or without a sign, to the number it
    denotes, and raises [ValueError] on a longer one; and it raises
    [TypeError] on the marker, [None], ranges and containers.  An [Integer] field with the
    default 10 reads 10 on an instance where the attribute is not set, and
    reads 5 after the assignment of 5.2. *)
Theorem Integer_func_cases :
  (forall s m e, exists q,
     func_of KInteger (VFloat (S754_finite s m e)) = Ok (VInt (signed s q)) /\
     0 <= q /\
     q * 2 ^ Z.max 0 (- e) <= Zpos m * 2 ^ Z.max 0 e
       < (q + 1) * 2 ^ Z.max 0 (- e)) /\
  (forall s, func_of KInteger (VFloat (S754_zero s)) = Ok (VInt 0)) /\
  (forall s, func_of KInteger (VFloat (S754_infinity s))
             = Raise OverflowError) /\
  func_of KInteger (VFloat S754_nan) = Raise ValueError /\
  (forall ds, Forall is_digit ds -> ds <> [] ->
     Z.of_nat (length ds) <= max_str_digits ->
     func_of KInteger (VStr (numeral ds)) = Ok (VInt (number ds)) /\
     func_of KInteger (VStr (43%N :: numeral ds)) = Ok (VInt (number ds)) /\
     func_of KInteger (VStr (45%N :: numeral ds))
     = Ok (VInt (- number ds))) /\
  (forall ds, Forall is_digit ds ->
     max_str_digits < Z.of_nat (length ds) ->
     func_of KInteger (VStr (numeral ds)) = Raise ValueError /\
     func_of KInteger (VStr (43%N :: numeral ds)) = Raise ValueError /\
     func_of KInteger (VStr (45%N :: numeral ds)) = Raise ValueError) /\
  (forall v, unsupported_by_int v = true ->
     func_of KInteger v = Raise TypeError) /\
  (let s0 := State [VInt 10; VFloat five_point_two] [] in
   exists fld s1 inst s2 r1 r2,
     new KInteger 1%nat s0 = (Ok fld, s1) /\
     descriptor_get (mkDescriptor "i" fld) ∅ s1 = (Ok r1, s1) /\
     deref (objects s1) r1 = Some (VInt 10) /\
     descriptor_set (mkDescriptor "i" fld) ∅ 2%nat s1 = (Ok inst, s2) /\
     descriptor_get (mkDescriptor "i" fld) inst s2 = (Ok r2, s2) /\
     deref (objects s2) r2 = Some (VInt 5)).
Proof.
  split; [|split; [|split; [|split; [|split; [|split; [|split]]]]]].
  - intros s m e. destruct (trunc_finite s m e) as (q & Hq & Hq0 & Hqb).
    exists q. split; [|now split].
    unfold func_of, py_int. now rewrite Hq.
  - reflexivity.
  - reflexivity.
  - reflexivity.
  - intros ds Hds Hne Hlen.
    destruct (int_of_numeral ds Hds Hne) as (Hshort & _).
    destruct (Hshort Hlen) as (H0 & Hp & Hm).
    unfold func_of, py_int, parse_int. now rewrite H0, Hp, Hm.
  - intros ds Hds Hlen.
    assert (Hne : ds <> [])
      by (intros ->; unfold max_str_digits in Hlen; simpl in Hlen; lia).
    destruct (int_of_numeral ds Hds Hne) as (_ & Hlong).
    destruct (Hlong Hlen) as (H0 & Hp & Hm).
    unfold func_of, py_int, parse_int. now rewrite H0, Hp, Hm.
  - intros v Hv. destruct v; try discriminate Hv; reflexivity.
  - intros s0.
    eexists _, _, _, _, _, _.
    split; [reflexivity|].
    split; [unfold descriptor_get; cbn [name]; rewrite lookup_empty;
            reflexivity|].
    split; [reflexivity|].
    split; [reflexivity|].
    split; [unfold descriptor_get; cbn [name]; rewrite lookup_insert_eq;
            reflexivity|].
    vm_compute. reflexivity.
Qed.

End IntegerField.

(** ** Containers from iterables *)

Lemma set_add_keeps acc x y : In y acc -> In y (set_add acc x).
Proof.
  unfold set_add. destruct (contains acc x); [trivial|].
  intros Hy. apply in_or_app. now left.
Qed.

Lemma fold_set_add_keeps xs acc y :
  In y acc -> In y (fold_left set_add xs acc).
Proof.
  revert acc. induction xs as [|x xs IH]; intros acc Hy; simpl; [trivial|].
  apply IH, set_add_keeps, Hy.
Qed.

(** Every element that is added is in the set, or an equal one is. *)
Lemma set_add_covers acc x :
  exists y, In y (set_add acc x) /\ (y = x \/ py_eq y x = true).
Proof.
  unfold set_add, contains. destruct (existsb _ acc) eqn:E.
  - apply existsb_exists in E as (y & Hy & Heq). eauto.
  - exists x. split; [|now left]. apply in_or_app. right. now left.
Qed.

Lemma fold_set_add_covers xs acc x :
  In x xs ->
  exists y, In y (fold_left set_add xs acc) /\ (y = x \/ py_eq y x = true).
Proof.
  revert acc. induction xs as [|x' xs IH]; intros acc Hx; [easy|].
  simpl. destruct Hx as [-> | Hx]; [|now apply IH].
  destruct (set_add_covers acc x) as (y & Hy & Heq).
  exists y. split; [|exact Heq]. now apply fold_set_add_keeps.
Qed.



(** Building a dictionary from items that are pairs with hashable keys. *)
Lemma dict_update_pairs items ps acc :
  Forall2 (fun item p => as_pair item = Some p /\ hashable (fst p) = true)
          items ps ->
  dict_update acc items
  = Ok (fold_left (fun a p => dict_put a (fst p) (snd p)) ps acc).
Proof.
  intros Hall. revert acc.
  induction Hall as [|item p items ps [Hp Hh] Hall IH]; intros acc;
    [reflexivity|].
  simpl. unfold as_pair in Hp.
  destruct (py_iter item) as [[|k [|v [|? ?]]]|e]; try discriminate Hp.
  injection Hp as <-. simpl in Hh. rewrite Hh. apply IH.
Qed.

Lemma pair_items items ps :
  Forall2 pair_item items ps ->
  Forall2 (fun item p => as_pair item = Some p /\ hashable (fst p) = true)
          items ps /\
  Forall (fun p => self_equal (fst p)) ps.
Proof.
  induction 1 as [|item p items ps (_ & Hp & Hh & Hs) _ [IH1 IH2]];
    split; constructor; auto.
Qed.

Section ContainerFunctions.
Context `{Runtime}.

Lemma fits_room v : fits v = true -> presize v = Ok tt /\ grow v = Ok tt.
Proof.
  destruct v; try (split; reflexivity). unfold fits, presize, grow.
  cbv zeta. intros Hf. rewrite Hf.
  apply andb_true_iff in Hf as [Hn ->]. apply Z.leb_le in Hn.
  now replace (maxsize <? range_len start stop step) with false
    by (symmetry; apply Z.ltb_ge; lia).
Qed.


End ContainerFunctions.

(** * Further properties of the classes *)

Lemma range_len_nonneg start stop step : 0 <= range_len start stop step.
Proof.
  unfold range_len.
  destruct (0 <? step) eqn:Hs;
    [destruct (start <? stop) eqn:Hc | destruct (stop <? start) eqn:Hc];
    try lia.
  - apply Z.ltb_lt in Hs, Hc.
    pose proof (Z.div_pos (stop - start - 1) step). lia.
  - apply Z.ltb_ge in Hs. apply Z.ltb_lt in Hc.
    destruct (Z.eq_dec step 0) as [-> | Hne].
    + simpl. rewrite Z.div_0_r. lia.
    + pose proof (Z.div_pos (start - stop - 1) (- step)). lia.
Qed.

Section FurtherCoercions.
Context `{Runtime}.

(** X1.  Whatever is assigned, the value that a class's function returns has
    the type of the class ([int] for [Integer], ..., [dict] for [Dict]; a
    set without equal elements): on contents, and on objects for the object
    that the call returns. *)
Theorem coercion_result_has_class_type (k : kind) :
  (forall v w, func_of k v = Ok w -> has_type k w) /\
  (forall a h r h' v,
     deref h a = Some v -> well_formed v ->
     class_func k a h = (Ok r, h') ->
     exists w, deref h' r = Some w /\ has_type k w).
Proof.
  split; [intros v w; apply func_of_has_type|].
  intros a h r h' v Ha Hwf. unfold class_func.
  rewrite (construct_eq _ _ _ _ _ Ha).
  destruct (returns_argument k v) eqn:Hsame.
  - intros [= <- <-]. exists v. split; [exact Ha|].
    now apply returns_argument_has_type.
  - destruct (func_of k v) as [w|e] eqn:Hw; [|discriminate].
    intros [= <- <-]. exists w. split; [apply deref_alloc_new|].
    eapply func_of_has_type, Hw.
Qed.

(** X3.  [Boolean] accepts every value.  Its result is [False] on [None],
    on a number exactly when the number equals zero, and on an iterable
    exactly when it has no item. *)
Theorem Boolean_func_cases (v : value) :
  exists t,
    func_of KBoolean v = Ok (VBool t) /\
    (v = VNone -> t = false) /\
    (forall n, num_of v = Some n -> t = negb (num_eq n zero)) /\
    (forall xs, py_iter v = Ok xs -> t = negb (is_nil xs)).
Proof.
  exists (truth v). split; [reflexivity|]. split; [now intros ->|]. split.
  - intros n Hn. destruct v; simpl in Hn; try discriminate Hn;
      injection Hn as <-; simpl.
    + destruct v; reflexivity.
    + now rewrite Z.mul_1_r.
    + destruct f as [s|s| |s m e]; simpl; try reflexivity.
      unfold scale. destruct (0 <=? e) eqn:He; simpl.
      * apply Z.leb_le in He.
        assert (0 < 2 ^ e) by (apply Z.pow_pos_nonneg; lia).
        symmetry. apply negb_true_iff, Z.eqb_neq.
        destruct s; simpl; nia.
      * symmetry. apply negb_true_iff, Z.eqb_neq. destruct s; simpl; lia.
    + destruct d as [s c e|s|s g p]; simpl; try reflexivity.
      unfold scale. destruct (0 <=? e) eqn:He; simpl.
      * apply Z.leb_le in He.
        assert (0 < 10 ^ e) by (apply Z.pow_pos_nonneg; lia).
        f_equal. apply eq_true_iff_eq.
        rewrite N.eqb_eq, Z.eqb_eq. destruct s; simpl; nia.
      * f_equal. apply eq_true_iff_eq.
        rewrite N.eqb_eq, Z.eqb_eq. destruct s; simpl; lia.
  - intros xs Hx. destruct v; simpl in Hx; try discriminate Hx;
      injection Hx as <-; simpl; try (now destruct s);
      try (now destruct bs); try (now destruct kvs); try reflexivity.
    unfold range_items. pose proof (range_len_nonneg start stop step) as Hl.
    destruct (range_len start stop step =? 0) eqn:E.
    + apply Z.eqb_eq in E. now rewrite E.
    + apply Z.eqb_neq in E.
      destruct (Z.to_nat (range_len start stop step)) eqn:En; [lia|].
      reflexivity.
Qed.

End FurtherCoercions.

(** ** Integers and text *)






Section IntegerText.
Context `{Runtime}.

Lemma ascii_space_is_space c : ascii_space c -> is_space c = true.
Proof.
  unfold ascii_space. simpl.
  intros [<- | [<- | [<- | [<- | [<- | [<- | []]]]]]]; reflexivity.
Qed.

Lemma skip_spaces_blank ws : Forall ascii_space ws -> skip_spaces ws = [].
Proof.
  induction 1 as [|c ws Hc _ IH]; simpl; [reflexivity|].
  now rewrite (ascii_space_is_space _ Hc).
Qed.

Lemma skip_spaces_app_l ws t :
  Forall ascii_space ws -> skip_spaces (ws ++ t) = skip_spaces t.
Proof.
  induction 1 as [|c ws Hc _ IH]; simpl; [reflexivity|].
  now rewrite (ascii_space_is_space _ Hc).
Qed.

Lemma skip_spaces_app_r t ws :
  Forall ascii_space ws ->
  skip_spaces (t ++ ws)
  = match skip_spaces t with [] => [] | l => l ++ ws end.
Proof.
  intros Hws. induction t as [|c t IH]; simpl.
  - now apply skip_spaces_blank.
  - destruct (is_space c); [exact IH | reflexivity].
Qed.

Lemma strip_surrounded ws1 t ws2 :
  Forall ascii_space ws1 -> Forall ascii_space ws2 ->
  strip (ws1 ++ t ++ ws2) = strip t.
Proof.
  intros H1 H2. unfold strip.
  rewrite (skip_spaces_app_l _ _ H1), (skip_spaces_app_r _ _ H2).
  destruct (skip_spaces t) as [|c l]; [reflexivity|].
  rewrite rev_app_distr, skip_spaces_app_l; [reflexivity|].
  now apply List.Forall_rev.
Qed.

(** X4.  [Integer] ignores white space around a text: the text with ASCII
    white space before and after it is coerced like the text itself.  A
    text of white space only, the empty text included, raises
    [ValueError]. *)
Theorem Integer_ignores_surrounding_space (ws1 t ws2 : text) :
  Forall ascii_space ws1 -> Forall ascii_space ws2 ->
  func_of KInteger (VStr (ws1 ++ t ++ ws2)) = func_of KInteger (VStr t) /\
  func_of KInteger (VStr (ws1 ++ ws2)) = Raise ValueError.
Proof.
  intros H1 H2.
  assert (Hgen : forall t', func_of KInteger (VStr (ws1 ++ t' ++ ws2))
                            = func_of KInteger (VStr t')).
  { intros t'. simpl. unfold parse_int, int_of_text.
    now rewrite (strip_surrounded _ _ _ H1 H2). }
  split; [apply Hgen|]. apply (Hgen []).
Qed.






End IntegerText.

(** ** Bytes and text *)

Lemma byte_of_Z_in_range z :
  0 <= z <= 255 ->
  exists x, byte_of_Z z = Ok x /\ Z.of_N (Byte.to_N x) = z.
Proof.
  intros Hz. unfold byte_of_Z.
  replace ((0 <=? z) && (z <? 256)) with true
    by (symmetry; apply andb_true_intro; split;
        [apply Z.leb_le | apply Z.ltb_lt]; lia).
  destruct (Byte.of_N (Z.to_N z)) as [x|] eqn:Hx.
  - exists x. split; [reflexivity|]. apply Byte.to_of_N in Hx. lia.
  - apply Byte.of_N_None_iff in Hx. lia.
Qed.

Lemma bytes_of_byte_items bs : bytes_of_items (byte_items bs) = Ok bs.
Proof.
  induction bs as [|x bs IH]; [reflexivity|].
  unfold byte_items in *. simpl. rewrite IH.
  pose proof (Byte.to_N_bounded x) as Hb.
  destruct (byte_of_Z_in_range (Z.of_N (Byte.to_N x))) as (y & -> & Hy);
    [lia|].
  simpl. do 2 f_equal.
  apply N2Z.inj in Hy.
  assert (Hs : Some y = Some x)
    by (rewrite <- (Byte.of_to_N y), <- (Byte.of_to_N x); now rewrite Hy).
  now injection Hs.
Qed.

Lemma bytes_of_items_in_range zs :
  Forall (fun z => 0 <= z <= 255) zs ->
  exists bs, bytes_of_items (map VInt zs) = Ok bs /\
             map (fun x => Z.of_N (Byte.to_N x)) bs = zs.
Proof.
  induction 1 as [|z zs Hz _ (bs & Hbs & Hmap)].
  - now exists [].
  - destruct (byte_of_Z_in_range z Hz) as (x & Hx & Hxz).
    exists (x :: bs). simpl. rewrite Hx, Hbs. simpl.
    now rewrite Hxz, Hmap.
Qed.

Lemma bytes_of_items_out_of_range zs :
  Exists (fun z => z < 0 \/ 255 < z) zs ->
  bytes_of_items (map VInt zs) = Raise ValueError.
Proof.
  induction 1 as [z zs Hz | z zs _ IH]; simpl.
  - unfold byte_of_Z.
    replace ((0 <=? z) && (z <? 256)) with false; [reflexivity|].
    symmetry. apply andb_false_iff.
    destruct Hz; [left; apply Z.leb_gt | right; apply Z.ltb_ge]; lia.
  - rewrite IH. unfold byte_of_Z.
    destruct ((0 <=? z) && (z <? 256)); [|reflexivity].
    destruct (Byte.of_N (Z.to_N z)); reflexivity.
Qed.

Lemma utf8_decode_ascii t : ascii_only t = true -> utf8_decode t = Some t.
Proof.
  induction t as [|c t IH]; simpl; [reflexivity|].
  intros Hc. apply andb_true_iff in Hc as [Hc Ht].
  now rewrite Hc, (IH Ht).
Qed.

(** What UTF-8 decodes to: scalar values, at most one per byte. *)
Lemma utf8_decode_scalar n :
  forall l s, (length l <= n)%nat -> utf8_decode l = Some s ->
    Forall unicode_scalar s /\ (length s <= length l)%nat.
Proof.
  induction n as [|n IH]; intros l s Hn.
  { destruct l; [|simpl in Hn; lia]. intros [= <-]. split; [constructor|].
    reflexivity. }
  destruct l as [|b0 r0]; [intros [= <-]; split; [constructor | reflexivity]|].
  simpl in Hn. simpl utf8_decode.
  assert (Hstep : forall c r, (length r <= n)%nat -> unicode_scalar c ->
            (length r < length (b0 :: r0))%nat ->
            option_map (cons c) (utf8_decode r) = Some s ->
            Forall unicode_scalar s /\ (length s <= length (b0 :: r0))%nat).
  { intros c r Hr Hc Hlt Hd.
    destruct (utf8_decode r) as [s'|] eqn:Hs'; [|discriminate].
    injection Hd as <-. destruct (IH r s' Hr Hs') as (Hall & Hlen).
    split; [now constructor | simpl in *; lia]. }
  destruct (b0 <? 128)%N eqn:H1.
  { apply Hstep; [lia | | simpl; lia].
    apply N.ltb_lt in H1. unfold unicode_scalar. lia. }
  destruct ((194 <=? b0) && (b0 <=? 223))%N eqn:H2.
  { apply andb_true_iff in H2 as [Ha Hb].
    apply N.leb_le in Ha, Hb.
    destruct r0 as [|b1 r1]; [discriminate|].
    unfold continuation. destruct ((128 <=? b1) && (b1 <=? 191))%N eqn:C1;
      [|discriminate].
    apply andb_true_iff in C1 as [Hc Hd]. apply N.leb_le in Hc, Hd.
    apply Hstep; [simpl in Hn; lia | | simpl; lia].
    unfold unicode_scalar. lia. }
  destruct ((224 <=? b0) && (b0 <=? 239))%N eqn:H3.
  { destruct r0 as [|b1 [|b2 r2]]; try discriminate.
    match goal with |- context [if ?c then _ else _] =>
      destruct c eqn:C end; [|discriminate].
    repeat (apply andb_true_iff in C as [C ?]).
    apply Hstep; [simpl in Hn; lia | | simpl; lia].
    match goal with Hs : negb _ = true |- _ =>
      apply negb_true_iff, andb_false_iff in Hs end.
    apply andb_true_iff in H3 as [Ha Hb]. apply N.leb_le in Ha, Hb.
    unfold continuation in *.
    repeat match goal with
           | Hx : (_ && _)%bool = true |- _ =>
               apply andb_true_iff in Hx as [? ?]
           | Hx : (_ <=? _)%N = true |- _ => apply N.leb_le in Hx
           end.
    unfold unicode_scalar. split; [lia|].
    match goal with Hs : _ \/ _ |- _ =>
      destruct Hs as [Hs | Hs];
        [apply N.leb_gt in Hs | apply N.leb_gt in Hs] end; lia. }
  destruct ((240 <=? b0) && (b0 <=? 244))%N eqn:H4; [|discriminate].
  destruct r0 as [|b1 [|b2 [|b3 r3]]]; try discriminate.
  match goal with |- context [if ?c then _ else _] =>
    destruct c eqn:C end; [|discriminate].
  repeat (apply andb_true_iff in C as [C ?]).
  apply Hstep; [simpl in Hn; lia | | simpl; lia].
  repeat match goal with
         | Hx : (_ <=? _)%N = true |- _ => apply N.leb_le in Hx
         end.
  unfold unicode_scalar. lia.
Qed.

Section BytesAndText.
Context `{Runtime}.

(** X6.  [Bytes] is the inverse of iterating over bytes: from the list or
    the tuple that [List] or [Tuple] makes of a byte string, it rebuilds
    that byte string.  From a list of integers it builds the bytes with
    those values when all of them are in [0, 255], and raises [ValueError]
    when one of them is not. *)
Theorem Bytes_of_integer_items :
  (forall bs w,
     func_of KList (VBytes bs) = Ok w \/ func_of KTuple (VBytes bs) = Ok w ->
     func_of KBytes w = Ok (VBytes bs)) /\
  (forall zs, Forall (fun z => 0 <= z <= 255) zs ->
     exists bs, func_of KBytes (VList (map VInt zs)) = Ok (VBytes bs) /\
                map (fun x => Z.of_N (Byte.to_N x)) bs = zs) /\
  (forall zs, Exists (fun z => z < 0 \/ 255 < z) zs ->
     func_of KBytes (VList (map VInt zs)) = Raise ValueError).
Proof.
  repeat split.
  - intros bs w [Hw | Hw]; injection Hw as <-; simpl; unfold py_bytes;
      simpl; fold (byte_items bs); now rewrite bytes_of_byte_items.
  - intros zs Hzs. destruct (bytes_of_items_in_range zs Hzs) as (bs & Hb & Hm).
    exists bs. split; [|exact Hm]. simpl. unfold py_bytes. simpl.
    now rewrite Hb.
  - intros zs Hzs. simpl. unfold py_bytes. simpl.
    now rewrite (bytes_of_items_out_of_range zs Hzs).
Qed.

(** X7.  On bytes that are all below 128, the codecs UTF-8, ASCII and
    Latin-1 agree: [String] returns the text with the same code points.
    With Latin-1, [String] decodes every byte string, to the text with the
    code points of the bytes. *)
Theorem String_decodes_ascii_alike (enc : string) (c : codec) :
  codec_of_name enc = Some c ->
  (forall bs, ascii_only (text_of_bytes bs) = true ->
     func_of (KString enc) (VBytes bs) = Ok (VStr (text_of_bytes bs)) /\
     func_of (KString enc) (VByteArray bs) = Ok (VStr (text_of_bytes bs))) /\
  (c = Latin1 -> forall bs,
     func_of (KString enc) (VBytes bs) = Ok (VStr (text_of_bytes bs)) /\
     func_of (KString enc) (VByteArray bs) = Ok (VStr (text_of_bytes bs))).
Proof.
  intros Hc.
  assert (Hdec : forall bs,
            ascii_only (text_of_bytes bs) = true \/ c = Latin1 ->
            py_decode enc bs = Ok (text_of_bytes bs)).
  { intros bs Ha. unfold py_decode. rewrite Hc.
    destruct bs as [|x bs]; [reflexivity|].
    unfold decode_with. destruct Ha as [Ha | ->]; [|reflexivity].
    destruct c.
    - now rewrite (utf8_decode_ascii _ Ha).
    - now rewrite Ha.
    - reflexivity. }
  split.
  - intros bs Ha. simpl. unfold String_func, py_str2.
    now rewrite (Hdec bs (or_introl Ha)).
  - intros Hl bs. simpl. unfold String_func, py_str2.
    now rewrite (Hdec bs (or_intror Hl)).
Qed.

(** X8.  The text that [String] decodes from UTF-8 consists of Unicode
    scalar values (no surrogate, nothing above U+10FFFF), at most one for
    each byte. *)
Theorem String_utf8_yields_scalar_values (bs : list byte) (t : text) :
  func_of (KString "UTF-8") (VBytes bs) = Ok (VStr t) ->
  Forall unicode_scalar t /\ (length t <= length bs)%nat.
Proof.
  simpl. unfold String_func, py_str2. rewrite py_decode_utf8.
  unfold decode_with.
  destruct (utf8_decode (text_of_bytes bs)) as [s|] eqn:Hs; simpl;
    [|discriminate].
  intros [= <-].
  destruct (utf8_decode_scalar _ _ _ (le_n _) Hs) as (Hall & Hlen).
  split; [exact Hall|]. unfold text_of_bytes in Hlen.
  now rewrite length_map in Hlen.
Qed.

End BytesAndText.

(** ** Dictionaries, and classes one after the other *)

Lemma keys_dict_put kvs k v :
  map fst (dict_put kvs k v) = set_add (map fst kvs) k.
Proof.
  unfold set_add, contains.
  induction kvs as [|[k' v'] kvs IH]; simpl; [reflexivity|].
  destruct (py_eq k' k); simpl; [reflexivity|].
  rewrite IH. now destruct (existsb _ (map fst kvs)).
Qed.

Lemma keys_dict_of_pairs ps acc :
  map fst (fold_left (fun a p => dict_put a (fst p) (snd p)) ps acc)
  = fold_left set_add (map fst ps) (map fst acc).
Proof.
  revert acc. induction ps as [|[k v] ps IH]; intros acc; simpl;
    [reflexivity|].
  now rewrite IH, keys_dict_put.
Qed.

Lemma dict_get_put kvs k v :
  py_eq k k = true -> dict_get (dict_put kvs k v) k = Some v.
Proof.
  intros Hk. induction kvs as [|[k' v'] kvs IH]; simpl.
  - now rewrite Hk.
  - destruct (py_eq k' k) eqn:E; simpl; now rewrite E.
Qed.

Lemma pairs_hashable items ps :
  Forall2 (fun item p => as_pair item = Some p /\ hashable (fst p) = true)
          items ps ->
  forallb hashable (map fst ps) = true.
Proof.
  induction 1 as [|item p items ps [_ Hh] _ IH]; simpl; [reflexivity|].
  now rewrite Hh, IH.
Qed.

Section Composition.
Context `{Runtime}.

(** X9.  The dictionary that [Dict] builds from an iterable of pairs (the
    iterable and the pairs not sets, whose order is their own) with hashable
    keys, each equal to itself, has no two equal keys; each of its keys is the key of a pair, and the
    key of each pair is equal to one of its keys; [List] of the dictionary
    is the list of its keys; and the value under the key of the last pair is
    the value of the last pair (a later pair overwrites an earlier one). *)
Theorem Dict_keys_and_last_value (v : value) (items : list value)
    (ps : list (value * value)) :
  is_dict v = false -> is_set v = false -> py_iter v = Ok items ->
  Forall2 pair_item items ps ->
  exists kvs,
    func_of KDict v = Ok (VDict kvs) /\
    distinct (map fst kvs) /\
    (forall k, In k (map fst kvs) -> In k (map fst ps)) /\
    (forall k, In k (map fst ps) ->
       exists k', In k' (map fst kvs) /\ py_eq k' k = true) /\
    func_of KList (VDict kvs) = Ok (VList (map fst kvs)) /\
    (forall ps' k x, ps = ps' ++ [(k, x)] -> dict_get kvs k = Some x).
Proof.
  intros Hd _ Hv Hps. apply pair_items in Hps as (Hps & Hself).
  exists (dict_of_pairs ps).
  assert (Hkeys : map fst (dict_of_pairs ps)
                  = fold_left set_add (map fst ps) [])
    by (unfold dict_of_pairs; now rewrite keys_dict_of_pairs).
  split; [|split; [|split; [|split; [|split]]]].
  - destruct v; try discriminate Hd; try discriminate Hv;
      unfold func_of, py_dict; rewrite Hv; simpl;
      rewrite (dict_update_pairs _ _ _ Hps); reflexivity.
  - rewrite Hkeys. apply fold_set_add_distinct. constructor.
  - intros k Hk. rewrite Hkeys in Hk.
    apply fold_set_add_incl in Hk as [[]|Hk]. exact Hk.
  - intros k Hk. rewrite Hkeys.
    destruct (fold_set_add_covers (map fst ps) [] k Hk)
      as (y & Hy & Hyk).
    exists y. split; [exact Hy|]. destruct Hyk as [Hyk | Heq]; [|exact Heq].
    subst y. apply in_map_iff in Hk as (p & <- & Hp).
    rewrite List.Forall_forall in Hself. now apply Hself.
  - reflexivity.
  - intros ps' k x -> . unfold dict_of_pairs. rewrite fold_left_app.
    simpl. apply dict_get_put.
    apply Forall_app in Hself as [_ Hlast]. now inversion Hlast.
Qed.

Lemma presize_grow v : presize v = Ok tt -> grow v = Ok tt.
Proof.
  destruct v; try reflexivity. unfold presize, grow. cbv zeta.
  destruct (maxsize <? range_len start stop step) eqn:E; [discriminate|].
  destruct (can_allocate (range_len start stop step)); [|discriminate].
  intros _. apply Z.ltb_ge in E.
  now replace (range_len start stop step <=? maxsize) with true
    by (symmetry; apply Z.leb_le; lia).
Qed.

(** X10.  Coercing in two steps.  What [List], [Tuple], [Set] and
    [FrozenSet] build from the result of [List] or [Tuple] is what they
    build from the original value; what [Set] and [FrozenSet] build from the
    result of [Set] or [FrozenSet] is what they build from the original
    value. *)
Theorem container_classes_compose (k0 : kind) (v w : value) :
  func_of k0 v = Ok w ->
  (k0 = KList \/ k0 = KTuple ->
     func_of KList w = func_of KList v /\
     func_of KTuple w = func_of KTuple v /\
     func_of KSet w = func_of KSet v /\
     func_of KFrozenSet w = func_of KFrozenSet v) /\
  (k0 = KSet \/ k0 = KFrozenSet ->
     func_of KSet w = func_of KSet v /\
     func_of KFrozenSet w = func_of KFrozenSet v).
Proof.
  intros Hw. split.
  - intros Hk.
    assert (Hseq : exists xs, presize v = Ok tt /\ py_iter v = Ok xs /\
                              (w = VList xs \/ w = VTuple xs)).
    { destruct Hk as [-> | ->]; simpl in Hw;
        unfold py_list, py_tuple in Hw;
        destruct (presize v) as [[]|]; simpl in Hw; try discriminate Hw;
        destruct (py_iter v) as [xs|]; simpl in Hw; try discriminate Hw;
        injection Hw as <-; eauto. }
    destruct Hseq as (xs & Hp & Hv & Hxs).
    simpl. unfold py_list, py_tuple, py_set, py_frozenset.
    rewrite Hp, (presize_grow _ Hp), Hv.
    destruct Hxs as [-> | ->]; repeat split; reflexivity.
  - intros Hk.
    assert (Hset : exists xs s, grow v = Ok tt /\ py_iter v = Ok xs /\
                                set_of xs = Ok s /\
                                (w = VSet s \/ w = VFrozenSet s)).
    { destruct Hk as [-> | ->]; simpl in Hw;
        unfold py_set, py_frozenset in Hw;
        destruct (grow v) as [[]|]; simpl in Hw; try discriminate Hw;
        destruct (py_iter v) as [xs|]; simpl in Hw; try discriminate Hw;
        destruct (set_of xs) as [s|] eqn:Hs; simpl in Hw;
        try discriminate Hw; injection Hw as <-; exists xs, s; auto. }
    destruct Hset as (xs & s & Hg & Hv & Hs & Hws).
    simpl. unfold py_set, py_frozenset. rewrite Hg, Hv. simpl. rewrite Hs.
    destruct Hws as [-> | ->]; simpl; rewrite (set_of_stable _ _ Hs);
      split; reflexivity.
Qed.

End Composition.

(** ** Decimals *)

Lemma trailing_zeros_divide m : (2 ^ Z.of_nat (trailing_zeros m) | Zpos m).
Proof.
  induction m as [m IH|m IH|]; simpl trailing_zeros;
    try (exists (Zpos m~1); simpl; lia); try (exists 1; reflexivity).
  rewrite Nat2Z.inj_succ, Z.pow_succ_r by lia.
  change (Zpos m~0) with (2 * Zpos m).
  now apply Z.mul_divide_mono_l.
Qed.

Lemma shiftr_exact m shift :
  0 <= shift <= Z.of_nat (trailing_zeros m) ->
  Z.shiftr (Zpos m) shift * 2 ^ shift = Zpos m.
Proof.
  intros Hs. rewrite Z.shiftr_div_pow2 by lia.
  assert (Hdiv : (2 ^ shift | Zpos m)).
  { apply Z.divide_trans with (2 ^ Z.of_nat (trailing_zeros m));
      [|apply trailing_zeros_divide].
    exists (2 ^ (Z.of_nat (trailing_zeros m) - shift)).
    rewrite <- Z.pow_add_r by lia. f_equal. lia. }
  destruct Hdiv as (q & Hq). rewrite Hq.
  rewrite Z.div_mul; [reflexivity|].
  apply Z.pow_nonzero; lia.
Qed.

Lemma quot_of_equal_fractions n1 d1 n2 d2 :
  0 < d1 -> 0 < d2 -> n1 * d2 = n2 * d1 -> Z.quot n1 d1 = Z.quot n2 d2.
Proof.
  intros H1 H2 Heq.
  rewrite <- (Z.quot_mul_cancel_r n1 d1 d2) by lia.
  rewrite <- (Z.quot_mul_cancel_r n2 d2 d1) by lia.
  rewrite Heq. f_equal. ring.
Qed.

(** [Decimal.from_float] keeps the value of a finite float. *)
Lemma decimal_of_float_value s m e :
  exists n1 d1 n2 d2,
    num_of_decimal (decimal_of_float (S754_finite s m e)) = NumFin n1 d1 /\
    num_of_float (S754_finite s m e) = NumFin n2 d2 /\
    0 < d1 /\ 0 < d2 /\ n1 * d2 = n2 * d1.
Proof.
  unfold decimal_of_float, num_of_float, num_of_decimal, scale.
  destruct (0 <=? e) eqn:He.
  - apply Z.leb_le in He. simpl (0 <=? 0).
    assert (0 < 2 ^ e) by (apply Z.pow_pos_nonneg; lia).
    eexists _, _, _, _. repeat split; try reflexivity; try lia.
    rewrite Z2N.id by nia. rewrite signed_mul. simpl (10 ^ 0). ring.
  - apply Z.leb_gt in He.
    set (shift := Z.min (Z.of_nat (trailing_zeros m)) (- e)).
    set (k := - e - shift).
    assert (Hshift : 0 <= shift <= Z.of_nat (trailing_zeros m)) by lia.
    assert (Hk : 0 <= k) by lia.
    pose proof (shiftr_exact m shift Hshift) as Hm.
    assert (HA : 0 <= Z.shiftr (Zpos m) shift)
      by (apply Z.shiftr_nonneg; lia).
    assert (H5 : 0 < 5 ^ k) by (apply Z.pow_pos_nonneg; lia).
    assert (H2k : 0 < 2 ^ k) by (apply Z.pow_pos_nonneg; lia).
    assert (H2s : 0 < 2 ^ shift) by (apply Z.pow_pos_nonneg; lia).
    assert (H2e : 2 ^ (- e) = 2 ^ shift * 2 ^ k)
      by (rewrite <- Z.pow_add_r by lia; f_equal; lia).
    assert (H10 : 10 ^ k = 2 ^ k * 5 ^ k)
      by (rewrite <- Z.pow_mul_l; reflexivity).
    rewrite Z2N.id by nia.
    set (A := Z.shiftr (Zpos m) shift) in *. clearbody A.
    destruct (0 <=? - k) eqn:Hk0.
    + apply Z.leb_le in Hk0.
      assert (E1 : 10 ^ (- k) = 1) by (replace (- k) with 0 by lia; easy).
      assert (E5 : 5 ^ k = 1) by (replace k with 0 by lia; easy).
      assert (E2 : 2 ^ k = 1) by (replace k with 0 by lia; easy).
      eexists _, _, _, _. repeat split; try reflexivity; try lia.
      rewrite H2e, <- Hm, E1, E5, E2. destruct s; simpl; ring.
    + rewrite Z.opp_involutive.
      eexists _, _, _, _. repeat split; try reflexivity; try lia.
      rewrite H2e, H10, <- Hm. destruct s; simpl; ring.
Qed.

Section Decimals.
Context `{Runtime}.

(** X11.  [Decimal] converts integers and floats exactly.  The decimal that
    it makes of an integer is equal ([==]) to the integer, and [Integer]
    maps it back to the integer.  The decimal that it makes of a float other
    than a NaN is equal to the float, with no rounding, and [Integer] does
    on the decimal what it does on the float: the same integer part, or the
    same error for an infinity or a NaN. *)
Theorem Decimal_is_exact :
  (forall z, exists d,
     func_of KDecimal (VInt z) = Ok (VDecimal d) /\
     py_eq (VDecimal d) (VInt z) = true /\
     func_of KInteger (VDecimal d) = Ok (VInt z)) /\
  (forall f, exists d,
     func_of KDecimal (VFloat f) = Ok (VDecimal d) /\
     (f <> S754_nan -> py_eq (VDecimal d) (VFloat f) = true) /\
     func_of KInteger (VDecimal d) = func_of KInteger (VFloat f)).
Proof.
  split.
  - intros z. exists (decimal_of_Z z). split; [reflexivity|].
    assert (Hn : num_of_decimal (decimal_of_Z z) = NumFin (z * 1) 1).
    { unfold decimal_of_Z, num_of_decimal, scale. simpl (0 <=? 0).
      simpl (10 ^ 0). f_equal. rewrite Z2N.id by lia.
      destruct (z <? 0) eqn:Hz; simpl;
        [apply Z.ltb_lt in Hz | apply Z.ltb_ge in Hz]; lia. }
    split.
    + change (num_eq (num_of_decimal (decimal_of_Z z)) (NumFin z 1) = true).
      rewrite Hn. simpl. apply Z.eqb_eq. ring.
    + unfold func_of, py_int. rewrite Hn. simpl. rewrite Z.quot_1_r.
      do 2 f_equal. ring.
  - intros f. exists (decimal_of_float f). split; [reflexivity|].
    destruct f as [s|s| |s m e].
    + split; [intros _; now destruct s|]. now destruct s.
    + split; [intros _; simpl; now destruct s | reflexivity].
    + split; [intros Hn; now destruct Hn | reflexivity].
    + destruct (decimal_of_float_value s m e)
        as (n1 & d1 & n2 & d2 & H1 & H2 & Hd1 & Hd2 & Heq).
      split.
      * intros _.
        change (num_eq (num_of_decimal (decimal_of_float (S754_finite s m e)))
                       (num_of_float (S754_finite s m e)) = true).
        rewrite H1, H2. simpl. now apply Z.eqb_eq.
      * unfold func_of, py_int. rewrite H1, H2. simpl.
        now rewrite (quot_of_equal_fractions _ _ _ _ Hd1 Hd2 Heq).
Qed.

End Decimals.

(** ** Installing a field, and the default of a plain field *)

(** X12.  [contribute_to_structure] installs, under the given name, a
    descriptor that holds that name and the field.  The attributes of the
    structure under other names stay as they are; installing again under
    the same name replaces the earlier descriptor; and fields installed
    under different names do not depend on the order of installation. *)
Theorem contribute_to_structure_installs (self : Field)
    (structure : gmap string FieldDescriptor) (nm : string) :
  contribute_to_structure self structure nm !! nm
  = Some (mkDescriptor nm self) /\
  (forall other, other <> nm ->
     contribute_to_structure self structure nm !! other
     = structure !! other) /\
  (forall earlier,
     contribute_to_structure self
       (contribute_to_structure earlier structure nm) nm
     = contribute_to_structure self structure nm) /\
  (forall other_field other, other <> nm ->
     contribute_to_structure other_field
       (contribute_to_structure self structure nm) other
     = contribute_to_structure self
         (contribute_to_structure other_field structure other) nm).
Proof.
  unfold contribute_to_structure. repeat split.
  - apply lookup_insert_eq.
  - intros other Hne. now apply lookup_insert_ne.
  - intros earlier. apply insert_insert_eq.
  - intros other_field other Hne. now apply insert_insert_ne.
Qed.

(** X13.  A plain field does not copy its default.  Every resolution of the
    default returns the one object that the constructor stored, without a
    call and without a change of state; so an in-place update of that
    object is what every later resolution returns. *)
Theorem plain_field_shares_its_default (f : callable) (d : loc)
    (s s1 : state) (fld : Field) :
  d <> NoDefault ->
  Field_init Attribute f d s = (Ok fld, s1) ->
  exists v,
    own_default fld = Some v /\
    forall s2,
      get_default fld s2 = (Ok v, s2) /\
      forall w h', mutate v w (objects s2) = (Ok tt, h') ->
        get_default fld (State h' (calls s2))
        = (Ok v, State h' (calls s2)) /\
        deref h' v = Some w.
Proof.
  intros Hd Hinit. rewrite (Field_init_eq _ _ _ _ Hd) in Hinit.
  destruct (f d (objects s)) as [[v|e] h] eqn:Hf; [|discriminate].
  injection Hinit as <- <-. exists v. split; [reflexivity|].
  intros s2. split; [reflexivity|].
  intros w h' Hmut. split; [reflexivity|].
  unfold mutate in Hmut. destruct v as [|i]; [discriminate|].
  destruct (objects s2 !! i) as [v0|] eqn:Hi; [|discriminate].
  destruct (mutable v0 && same_type v0 w); [|discriminate].
  injection Hmut as <-. simpl.
  apply list_lookup_insert_eq. eapply lookup_lt_Some, Hi.
Qed.

(** ** Floats of integers *)

Lemma digits2_pos_lower m : 2 ^ (Zpos (digits2_pos m) - 1) <= Zpos m.
Proof.
  induction m as [m IH|m IH|]; simpl digits2_pos; [| |simpl; lia];
    rewrite Pos2Z.inj_succ;
    replace (Z.succ (Zpos (digits2_pos m)) - 1)
      with (Z.succ (Zpos (digits2_pos m) - 1)) by lia;
    rewrite Z.pow_succ_r by lia; lia.
Qed.

Lemma digits2_pos_iter m d :
  digits2_pos (Pos.iter xO m d) = (digits2_pos m + d)%positive.
Proof.
  induction d as [|d IH] using Pos.peano_ind; simpl.
  - lia.
  - rewrite Pos.iter_succ. simpl. rewrite IH. lia.
Qed.

Lemma pos_iter_xO m d : Zpos (Pos.iter xO m d) = Zpos m * 2 ^ Zpos d.
Proof.
  induction d as [|d IH] using Pos.peano_ind; simpl.
  - lia.
  - rewrite Pos.iter_succ, Pos2Z.inj_succ, Z.pow_succ_r by lia.
    change (Zpos (Pos.iter xO m d)~0) with (2 * Zpos (Pos.iter xO m d)).
    rewrite IH. ring.
Qed.

(** Rounding an integer below 2^53 to binary64 changes nothing. *)
Lemma binary_round_small s m :
  Zpos m < 2 ^ 53 ->
  exists mz ez,
    binary_round 53 1024 s m 0 = S754_finite s mz ez /\
    - 52 <= ez <= 0 /\ Zpos mz = Zpos m * 2 ^ (- ez).
Proof.
  intros Hm.
  pose proof (digits2_pos_lower m) as Hlow.
  assert (HD : Zpos (digits2_pos m) <= 53).
  { destruct (Z_le_gt_dec (Zpos (digits2_pos m)) 53) as [|Hgt]; [easy|].
    assert (2 ^ 53 <= 2 ^ (Zpos (digits2_pos m) - 1))
      by (apply Z.pow_le_mono_r; lia).
    lia. }
  unfold binary_round, shl_align.
  replace (fexp 53 1024 (Zpos (digits2_pos m) + 0))
    with (Zpos (digits2_pos m) - 53)
    by (unfold fexp, emin; lia).
  assert (Haux : forall mz ez, Zpos (digits2_pos mz) + ez = 53 + ez ->
            - 52 <= ez <= 0 ->
            binary_round_aux 53 1024 s (Zpos mz) ez loc_Exact
            = S754_finite s mz ez).
  { intros mz ez Hdig Hez. unfold binary_round_aux, shr_fexp.
    simpl Zdigits2.
    replace (fexp 53 1024 (Zpos (digits2_pos mz) + ez) - ez) with 0
      by (unfold fexp, emin; lia).
    simpl. 
    replace (fexp 53 1024 (Zpos (digits2_pos mz) + ez) - ez) with 0
      by (unfold fexp, emin; lia).
    simpl.
    replace (ez <=? 1024 - 53) with true by (symmetry; apply Z.leb_le; lia).
    reflexivity. }
  destruct (Zpos (digits2_pos m) - 53 - 0) as [|p|p] eqn:Hsub; try lia.
  - exists m, 0. split; [|split; [lia | simpl; lia]].
    apply Haux; lia.
  - exists (Pos.iter xO m p), (Zpos (digits2_pos m) - 53).
    split; [|split; [lia|]].
    + apply Haux; [|lia]. rewrite digits2_pos_iter. lia.
    + rewrite pos_iter_xO. do 2 f_equal. lia.
Qed.

(** The value of that float is the integer. *)
Lemma float_of_small_value s m :
  Zpos m < 2 ^ 53 ->
  exists mz ez n d,
    binary_round 53 1024 s m 0 = S754_finite s mz ez /\
    num_of_float (S754_finite s mz ez) = NumFin n d /\
    0 < d /\ n = signed s (Zpos m) * d.
Proof.
  intros Hm. destruct (binary_round_small s m Hm) as (mz & ez & Hr & Hez & Hmz).
  unfold num_of_float, scale. destruct (0 <=? ez) eqn:He.
  - apply Z.leb_le in He. assert (ez = 0) as -> by lia.
    simpl in Hmz. exists mz, 0, (signed s (Zpos mz) * 2 ^ 0), 1.
    split; [exact Hr|]. split; [reflexivity|]. split; [lia|].
    rewrite Hmz. simpl (2 ^ 0). destruct s; simpl; lia.
  - exists mz, ez, (signed s (Zpos mz)), (2 ^ (- ez)).
    split; [exact Hr|]. split; [now rewrite He|].
    split; [apply Z.pow_pos_nonneg; lia|].
    rewrite Hmz. apply signed_mul.
Qed.

Section Floats.
Context `{Runtime}.

(** X14.  [Float] represents every integer of magnitude below 2^53 exactly:
    the float is equal ([==]) to the integer, and [Integer] maps it back to
    the integer. *)
Theorem Float_of_small_integer_is_exact (z : Z) :
  Z.abs z < 2 ^ 53 ->
  exists f,
    func_of KFloat (VInt z) = Ok (VFloat f) /\
    py_eq (VFloat f) (VInt z) = true /\
    func_of KInteger (VFloat f) = Ok (VInt z).
Proof.
  intros Hz.
  assert (Hgen : forall s m, Zpos m < 2 ^ 53 ->
            exists f,
              func_of KFloat (VInt (signed s (Zpos m))) = Ok (VFloat f) /\
              py_eq (VFloat f) (VInt (signed s (Zpos m))) = true /\
              func_of KInteger (VFloat f) = Ok (VInt (signed s (Zpos m)))).
  { intros s m Hm.
    destruct (float_of_small_value s m Hm)
      as (mz & ez & n & d & Hr & Hn & Hd & Hnd).
    exists (S754_finite s mz ez). split; [|split].
    - unfold func_of, py_float, float_of_Z.
      assert (Hb : binary_normalize 53 1024 (signed s (Zpos m)) 0 false
                   = S754_finite s mz ez)
        by (destruct s; exact Hr).
      now rewrite Hb.
    - change (num_eq (num_of_float (S754_finite s mz ez))
                     (NumFin (signed s (Zpos m)) 1) = true).
      rewrite Hn. simpl. apply Z.eqb_eq. lia.
    - unfold func_of, py_int. rewrite Hn. simpl. rewrite Hnd.
      rewrite Z.quot_mul by lia. reflexivity. }
  destruct z as [|m|m].
  - exists (S754_zero false). repeat split.
  - apply (Hgen false m). lia.
  - apply (Hgen true m). lia.
Qed.

End Floats.

(** ** Sets, unknown codecs, digit groups *)

Lemma set_add_length acc x : (length (set_add acc x) <= S (length acc))%nat.
Proof.
  unfold set_add. destruct (contains acc x); [lia|].
  rewrite length_app. simpl. lia.
Qed.

Lemma fold_set_add_length xs acc :
  (length (fold_left set_add xs acc) <= length acc + length xs)%nat.
Proof.
  revert acc. induction xs as [|x xs IH]; intros acc; simpl; [lia|].
  pose proof (IH (set_add acc x)). pose proof (set_add_length acc x). lia.
Qed.

Section SetsCodecsDigits.
Context `{Runtime}.

(** X15.  A set never has more elements than the iterable has items.  An
    iterable of hashable items, each equal to itself and no two of them
    equal, becomes the set of exactly those items: none is dropped. *)
Theorem Set_keeps_distinct_items (v : value) (xs : list value) :
  py_iter v = Ok xs ->
  (forall s, func_of KSet v = Ok (VSet s) \/
             func_of KFrozenSet v = Ok (VFrozenSet s) ->
     (length s <= length xs)%nat) /\
  (fits v = true -> forallb hashable xs = true -> distinct xs ->
   Forall self_equal xs ->
     exists s, Permutation s xs /\
       func_of KSet v = Ok (VSet s) /\
       func_of KFrozenSet v = Ok (VFrozenSet s)).
Proof.
  intros Hv. split.
  - intros s Hs.
    assert (Hset : set_of xs = Ok s).
    { destruct Hs as [Hs | Hs]; simpl in Hs;
        unfold py_set, py_frozenset in Hs;
        destruct (grow v) as [[]|]; simpl in Hs; try discriminate Hs;
        rewrite Hv in Hs; simpl in Hs;
        destruct (set_of xs); simpl in Hs; try discriminate Hs;
        now injection Hs as <-. }
    unfold set_of in Hset. destruct (forallb hashable xs); [|discriminate].
    injection Hset as <-. apply (fold_set_add_length xs []).
  - intros Hf Hh Hd _. exists xs. split; [reflexivity|].
    destruct (fits_room _ Hf) as (_ & Hg).
    simpl. unfold py_set, py_frozenset, set_of.
    rewrite Hg, Hv. simpl. rewrite Hh. simpl.
    now rewrite (fold_set_add_id xs [] Hd).
Qed.


Lemma digits_numeral_app ds t acc after :
  Forall is_digit ds -> ds <> [] ->
  digits acc after (numeral ds ++ t)
  = digits (fold_left (fun a d => 10 * a + d) ds acc) true t.
Proof.
  intros Hds. revert acc after.
  induction Hds as [|d ds Hd Hds IH]; intros acc after Hne;
    [now destruct Hne|].
  change (numeral (d :: ds) ++ t)
    with (digit_char d :: (numeral ds ++ t)).
  simpl digits. rewrite (digit_val_digit_char _ Hd).
  destruct ds as [|d' ds']; [reflexivity|].
  apply IH. discriminate.
Qed.

(** Nothing is stripped from a text without white space. *)
Lemma strip_no_space t :
  Forall (fun c => is_space c = false) t -> strip t = t.
Proof.
  intros Ht. unfold strip.
  assert (Hskip : forall l, Forall (fun c => is_space c = false) l ->
            skip_spaces l = l).
  { intros l Hl. destruct Hl as [|c l Hc _]; [reflexivity|].
    simpl. now rewrite Hc. }
  rewrite (Hskip t Ht), (Hskip (rev t)); [apply rev_involutive|].
  now apply List.Forall_rev.
Qed.

(** The groups after the first one, each behind its underscore. *)
Lemma digits_groups rest t acc :
  Forall (fun g => Forall is_digit g /\ g <> []) rest ->
  digits acc true (concat (map (fun h => 95%N :: numeral h) rest) ++ t)
  = digits (fold_left (fun a d => 10 * a + d) (concat rest) acc) true t.
Proof.
  intros Hrest. revert acc.
  induction Hrest as [|g rest [Hg Hne] _ IH]; intros acc; [reflexivity|].
  cbn [map concat]. rewrite <- !app_assoc, fold_left_app.
  change ((95%N :: numeral g) ++ ?r) with (95%N :: (numeral g ++ r)).
  change (digits acc true (95%N :: ?r)) with (digits acc false r).
  rewrite (digits_numeral_app _ _ _ _ Hg Hne). apply IH.
Qed.

Lemma digits_grouped g rest t :
  Forall (fun g => Forall is_digit g /\ g <> []) (g :: rest) ->
  digits 0 false (grouped (g :: rest) ++ t)
  = digits (number (concat (g :: rest))) true t.
Proof.
  intros Hall. pose proof (Forall_inv Hall) as [Hg Hne].
  unfold grouped, number. cbn [concat].
  rewrite <- app_assoc, fold_left_app.
  rewrite (digits_numeral_app _ _ _ _ Hg Hne).
  apply digits_groups. exact (Forall_inv_tail Hall).
Qed.

Lemma grouped_no_space groups :
  Forall (fun g => Forall is_digit g /\ g <> []) groups ->
  Forall (fun c => is_space c = false) (grouped groups).
Proof.
  assert (Hnum : forall g, Forall is_digit g ->
            Forall (fun c => is_space c = false) (numeral g)).
  { intros g Hg. unfold numeral. apply List.Forall_map.
    eapply List.Forall_impl; [|exact Hg].
    intros d Hd. now apply is_space_digit_char. }
  intros Hall. destruct Hall as [|g rest [Hg _] Hrest]; [constructor|].
  unfold grouped. apply Forall_app. split; [now apply Hnum|].
  induction Hrest as [|h rest [Hh _] _ IH]; [constructor|].
  cbn [map concat]. apply Forall_app. split; [|exact IH].
  constructor; [reflexivity | now apply Hnum].
Qed.

Lemma digit_count_grouped groups :
  Forall (fun g => Forall is_digit g /\ g <> []) groups ->
  digit_count (grouped groups) = Z.of_nat (length (concat groups)).
Proof.
  intros Hall. destruct Hall as [|g rest [Hg _] Hrest]; [reflexivity|].
  unfold grouped. cbn [concat].
  rewrite digit_count_app, length_app, (digit_count_numeral _ Hg).
  assert (Hrest' :
            digit_count (concat (map (fun h => 95%N :: numeral h) rest))
            = Z.of_nat (length (concat rest))).
  { induction Hrest as [|h rest [Hh _] _ IH]; [reflexivity|].
    cbn [map concat].
    rewrite digit_count_app, length_app, digit_count_cons, IH.
    rewrite (digit_count_numeral _ Hh).
    change (counts_as_digit 95%N) with false. lia. }
  rewrite Hrest'. lia.
Qed.

(** X17.  [Integer] reads digit groups that single underscores separate, as
    in [1_000_000], as the number of the digits alone (up to
    [max_str_digits] digits).  An underscore at the start, at the end, or
    next to another underscore makes the text invalid: it raises
    [ValueError]. *)
Theorem Integer_digit_groups (groups : list (list Z)) :
  Forall (fun g => Forall is_digit g /\ g <> []) groups -> groups <> [] ->
  (Z.of_nat (length (concat groups)) <= max_str_digits ->
   func_of KInteger (VStr (grouped groups))
   = Ok (VInt (number (concat groups)))) /\
  func_of KInteger (VStr (95%N :: grouped groups)) = Raise ValueError /\
  func_of KInteger (VStr (grouped groups ++ [95%N])) = Raise ValueError /\
  (forall more,
     Forall (fun g => Forall is_digit g /\ g <> []) more ->
     func_of KInteger (VStr (grouped groups ++ 95%N :: 95%N :: grouped more))
     = Raise ValueError).
Proof.
  intros Hall Hne.
  pose proof (grouped_no_space groups Hall) as Hsp.
  assert (H95 : is_space 95%N = false) by reflexivity.
  destruct groups as [|g rest]; [now destruct Hne|].
  pose proof (Forall_inv Hall) as [Hg Hgne].
  destruct g as [|d g']; [now destruct Hgne|].
  pose proof (Forall_inv Hg) as Hd.
  assert (Hhead : forall t,
            grouped ((d :: g') :: rest) ++ t
            = digit_char d
              :: (numeral g'
                  ++ concat (map (fun h => 95%N :: numeral h) rest)) ++ t)
    by reflexivity.
  assert (Hsign : (digit_char d =? 43)%N = false /\
                  (digit_char d =? 45)%N = false).
  { unfold is_digit in Hd.
    split; apply N.eqb_neq; unfold digit_char; lia. }
  destruct Hsign as (Hp & Hm).
  (* a text that starts with the first group and holds no white space *)
  assert (Hparse : forall t, Forall (fun c => is_space c = false) t ->
            int_of_text (grouped ((d :: g') :: rest) ++ t)
            = if max_str_digits
                 <? digit_count (grouped ((d :: g') :: rest) ++ t)
              then None
              else digits (number (concat ((d :: g') :: rest))) true t).
  { intros t Ht. unfold int_of_text.
    rewrite strip_no_space by (apply Forall_app; now split).
    cbv zeta. rewrite <- (digits_grouped _ _ _ Hall).
    rewrite Hhead, Hp, Hm. reflexivity. }
  unfold func_of, py_int, parse_int. split; [|split; [|split]].
  - intros Hlen. rewrite <- (app_nil_r (grouped _)).
    rewrite (Hparse [] (List.Forall_nil _)), app_nil_r.
    rewrite (digit_count_grouped _ Hall).
    now replace (max_str_digits <? _) with false
      by (symmetry; apply Z.ltb_ge; lia).
  - unfold int_of_text.
    rewrite strip_no_space by (constructor; [exact H95 | exact Hsp]).
    cbv zeta. now destruct (max_str_digits <? _).
  - rewrite (Hparse [95%N]) by (constructor; [exact H95 | constructor]).
    now destruct (max_str_digits <? _).
  - intros more Hmore.
    rewrite (Hparse (95%N :: 95%N :: grouped more)).
    + now destruct (max_str_digits <? _).
    + constructor; [exact H95|]. constructor; [exact H95|].
      now apply grouped_no_space.
Qed.

End SetsCodecsDigits.

(** * Where the specification and the code differ *)


(** C2 does not hold: a [List] field with the default of the docstring,
    [range(665, 668)], does not store the range but the list made from it. *)
Lemma list_default_not_stored_raw :
  ~ (forall (rt : Runtime) k d v s fld s',
       is_container k = true -> d <> NoDefault ->
       deref (objects s) d = Some v -> well_formed v ->
       @new rt k d s = (Ok fld, s') ->
       exists c, own__default fld = Some c /\ deref (objects s') c = Some v).
Proof.
  intros Hall.
  set (r := VRange 665 668 1).
  destruct (Hall bare_runtime KList 1%nat r (State [r] [])
              (mkField Property (@class_func bare_runtime KList) None
                       (Some 2%nat))
              (State [r; VList [VInt 665; VInt 666; VInt 667]] [1%nat]))
    as (c & Hc & Hv); try reflexivity; try exact I; try discriminate.
  injection Hc as <-. discriminate Hv.
Qed.


(** C7 does not hold of every float: [int] of an infinity raises
    [OverflowError]. *)
Lemma Integer_func_rejects_infinity :
  ~ (forall (rt : Runtime) (f : spec_float),
       exists z, @func_of rt KInteger (VFloat f) = Ok (VInt z)).
Proof.
  intros Hall.
  destruct (Hall bare_runtime (S754_infinity false)) as (z & Hz).
  discriminate Hz.
Qed.


(** C9 does not hold with [==]: [Float] returns a NaN as it is, and a NaN
    is not equal to itself. *)
Lemma Float_nan_differs_from_itself :
  ~ (forall (rt : Runtime) k v w w',
       @func_of rt k v = Ok w -> @func_of rt k w = Ok w' ->
       py_eq w' w = true).
Proof.
  intros Hall.
  specialize (Hall bare_runtime KFloat (VFloat S754_nan) (VFloat S754_nan)
                   (VFloat S754_nan) eq_refl eq_refl).
  discriminate Hall.
Qed.

(** * The theorems at work *)

#[local] Existing Instance bare_runtime.


(** [List(range(665, 668))] stores a list. *)
Lemma container_default_stored_coerced_witness :
  let r := VRange 665 668 1 in
  let l := VList [VInt 665; VInt 666; VInt 667] in
  let fld := mkField Property (class_func KList) None (Some 2%nat) in
  is_container KList = true /\ 1%nat <> NoDefault /\
  deref [r] 1%nat = Some r /\ well_formed r /\
  new KList 1%nat (State [r] []) = (Ok fld, State [r; l] [1%nat]) /\
  exists c, own__default fld = Some c /\ deref [r; l] c = Some l /\
            c <> 1%nat.
Proof.
  intros r l fld.
  assert (H1 : 1%nat <> NoDefault) by discriminate.
  assert (H2 : new KList 1%nat (State [r] []) = (Ok fld, State [r; l] [1%nat]))
    by reflexivity.
  repeat (split; [first [reflexivity | exact H1 | exact I]|]).
  destruct (container_default_stored_coerced KList 1%nat r (State [r] [])
              (State [r; l] [1%nat]) fld eq_refl H1 eq_refl I H2)
    as (w & c & Hw & _ & _ & Hc & _ & Hcw & _ & Hfresh & _).
  injection Hw as <-. exists c. auto.
Defined.

(** [Field(int, '12')], of the docstring of [Field]. *)
Lemma scalar_default_coerced_once_witness :
  let s0 := State [VStr (u "12")] [] in
  let s1 := State [VStr (u "12"); VInt 12] [1%nat] in
  let fld := mkField Attribute (class_func KInteger) (Some 2%nat) None in
  1%nat <> NoDefault /\
  Field_init Attribute (class_func KInteger) 1%nat s0 = (Ok fld, s1) /\
  exists v, get_default fld s1 = (Ok v, s1) /\
            deref (objects s1) v = Some (VInt 12).
Proof.
  intros s0 s1 fld.
  assert (H1 : 1%nat <> NoDefault) by discriminate.
  assert (H2 : Field_init Attribute (class_func KInteger) 1%nat s0
               = (Ok fld, s1)) by reflexivity.
  split; [exact H1|]. split; [exact H2|].
  destruct (scalar_default_coerced_once (class_func KInteger) 1%nat s0 s1
              fld H1 H2) as (v & Hf & _ & Hfld & Hget & _).
  exists v. split; [apply Hget|].
  injection Hfld as <-. reflexivity.
Defined.

(** [Bytes('unicode string')]: the declaration fails. *)
Lemma invalid_default_fails_at_construction_witness :
  let s0 := State [VStr (u "unicode string")] [] in
  1%nat <> NoDefault /\
  class_func KBytes 1%nat (objects s0) = (Raise TypeError, objects s0) /\
  Field_init Attribute (class_func KBytes) 1%nat s0
  = (Raise TypeError, State (objects s0) [1%nat]).
Proof.
  intros s0.
  assert (H1 : 1%nat <> NoDefault) by discriminate.
  split; [exact H1|]. split; [reflexivity|].
  destruct (invalid_default_fails_at_construction Attribute
              (class_func KBytes) 1%nat s0 H1) as (Hraise & _ & _).
  apply (Hraise TypeError (objects s0)). reflexivity.
Defined.


(** Scenario B: the field keeps [b"x"] when a text is assigned. *)
Lemma Bytes_accepts_bytes_rejects_text_witness :
  let s := State [VBytes (b "x"); VStr (u "unicode string")] [1%nat] in
  let fld := mkField Attribute (class_func KBytes) (Some 1%nat) None in
  deref (objects s) 2%nat = Some (VStr (u "unicode string")) /\
  descriptor_set (mkDescriptor "b" fld) ∅ 2%nat s
  = (Raise TypeError, State (objects s) [1; 2]%nat) /\
  descriptor_get (mkDescriptor "b" fld) ∅ s = (Ok 1%nat, s).
Proof.
  intros s fld. split; [reflexivity|]. split; [|reflexivity].
  destruct (Bytes_accepts_bytes_rejects_text [] (u "unicode string"))
    as (_ & _ & _ & _ & Hset).
  apply (Hset 2%nat s (Some 1%nat) "b"%string ∅). reflexivity.
Defined.

(** [int('321')] and [int('-12')]. *)
Lemma Integer_func_cases_witness :
  Forall is_digit [3; 2; 1] /\ [3; 2; 1] <> [] /\
  Z.of_nat (length [3; 2; 1]) <= max_str_digits /\
  func_of KInteger (VStr (u "321")) = Ok (VInt 321) /\
  func_of KInteger (VStr (u "-321")) = Ok (VInt (-321)) /\
  unsupported_by_int VNone = true /\
  func_of KInteger VNone = Raise TypeError.
Proof.
  assert (Hd : Forall is_digit [3; 2; 1])
    by (repeat constructor; unfold is_digit; lia).
  assert (Hne : [3; 2; 1] <> []) by discriminate.
  assert (Hlen : Z.of_nat (length [3; 2; 1]) <= max_str_digits)
    by (vm_compute; discriminate).
  destruct Integer_func_cases as (_ & _ & _ & _ & Htext & _ & Hun & _).
  destruct (Htext [3; 2; 1] Hd Hne Hlen) as (H0 & _ & Hm).
  split; [exact Hd|]. split; [exact Hne|]. split; [exact Hlen|].
  split; [exact H0|].
  split; [exact Hm|]. split; [reflexivity|]. apply Hun. reflexivity.
Defined.


(** [int('12')] coerced again, and compared. *)
Lemma coercion_stable_witness :
  func_of KInteger (VStr (u "12")) = Ok (VInt 12) /\
  exists w', func_of KInteger (VInt 12) = Ok w' /\ w' = VInt 12 /\
             py_eq w' (VInt 12) = true.
Proof.
  split; [reflexivity|].
  destruct (coercion_stable KInteger (VStr (u "12")) (VInt 12) eq_refl)
    as (w' & Hw' & Heq & Hpy).
  exists w'. split; [exact Hw'|]. split; [exact Heq|]. now apply Hpy.
Defined.

(** * The further properties at work *)

(** [Set] of a list: the object returned holds a set. *)
Lemma coercion_result_has_class_type_witness :
  let h := [VList [VInt 1; VInt 1; VInt 2]] in
  deref h 1%nat = Some (VList [VInt 1; VInt 1; VInt 2]) /\
  class_func KSet 1%nat h
  = (Ok 2%nat, h ++ [VSet [VInt 1; VInt 2]]) /\
  exists w, deref (h ++ [VSet [VInt 1; VInt 2]]) 2%nat = Some w /\
            has_type KSet w.
Proof.
  intros h. split; [reflexivity|]. split; [reflexivity|].
  destruct (coercion_result_has_class_type KSet) as (_ & Hobj).
  apply (Hobj 1%nat h 2%nat _ (VList [VInt 1; VInt 1; VInt 2]));
    [reflexivity | exact I | reflexivity].
Defined.

(** [bool(666)], [bool(0)] and [bool('')], of the docstring and beyond. *)
Lemma Boolean_func_cases_witness :
  func_of KBoolean (VInt 666) = Ok (VBool true) /\
  func_of KBoolean (VInt 0) = Ok (VBool false) /\
  func_of KBoolean (VStr []) = Ok (VBool false).
Proof.
  split; [|split].
  - destruct (Boolean_func_cases (VInt 666)) as (t & Ht & _ & Hnum & _).
    rewrite Ht. now rewrite (Hnum (NumFin 666 1) eq_refl).
  - destruct (Boolean_func_cases (VInt 0)) as (t & Ht & _ & Hnum & _).
    rewrite Ht. now rewrite (Hnum (NumFin 0 1) eq_refl).
  - destruct (Boolean_func_cases (VStr [])) as (t & Ht & _ & _ & Hit).
    rewrite Ht. now rewrite (Hit [] eq_refl).
Defined.

(** [int('  321\n')] *)
Lemma Integer_ignores_surrounding_space_witness :
  Forall ascii_space [32; 32]%N /\ Forall ascii_space [10]%N /\
  func_of KInteger (VStr ([32; 32]%N ++ u "321" ++ [10]%N))
  = Ok (VInt 321) /\
  func_of KInteger (VStr [32; 32; 10]%N) = Raise ValueError.
Proof.
  assert (H1 : Forall ascii_space [32; 32]%N)
    by (repeat constructor; unfold ascii_space; simpl; tauto).
  assert (H2 : Forall ascii_space [10]%N)
    by (repeat constructor; unfold ascii_space; simpl; tauto).
  destruct (Integer_ignores_surrounding_space [32; 32]%N (u "321") [10]%N
              H1 H2) as (Hp & Hb).
  split; [exact H1|]. split; [exact H2|]. split.
  - rewrite Hp. reflexivity.
  - exact Hb.
Defined.


(** [bytes(list(b'key'))] and [bytes([1, 256])]. *)
Lemma Bytes_of_integer_items_witness :
  func_of KList (VBytes (b "key"))
  = Ok (VList [VInt 107; VInt 101; VInt 121]) /\
  func_of KBytes (VList [VInt 107; VInt 101; VInt 121])
  = Ok (VBytes (b "key")) /\
  Exists (fun z => z < 0 \/ 255 < z) [1; 256] /\
  func_of KBytes (VList [VInt 1; VInt 256]) = Raise ValueError.
Proof.
  destruct Bytes_of_integer_items as (Hinv & _ & Hout).
  assert (Hex : Exists (fun z => z < 0 \/ 255 < z) [1; 256])
    by (apply Exists_cons_tl, Exists_cons_hd; lia).
  split; [reflexivity|]. split.
  - apply (Hinv (b "key")). left. reflexivity.
  - split; [exact Hex|]. apply (Hout [1; 256] Hex).
Defined.

(** ASCII bytes under Latin-1. *)
Lemma String_decodes_ascii_alike_witness :
  codec_of_name "latin-1" = Some Latin1 /\
  ascii_only (text_of_bytes (b "test")) = true /\
  func_of (KString "latin-1") (VBytes (b "test")) = Ok (VStr (u "test")).
Proof.
  split; [reflexivity|]. split; [reflexivity|].
  destruct (String_decodes_ascii_alike "latin-1" Latin1 eq_refl)
    as (Hascii & _).
  destruct (Hascii (b "test") eq_refl) as (Hb & _). exact Hb.
Defined.

(** The euro sign: three bytes, one scalar value. *)
Lemma String_utf8_yields_scalar_values_witness :
  func_of (KString "UTF-8") (VBytes [xe2; x82; xac]) = Ok (VStr [8364%N]) /\
  Forall unicode_scalar [8364%N] /\ (length [8364%N] <= 3)%nat.
Proof.
  split; [reflexivity|].
  apply (String_utf8_yields_scalar_values [xe2; x82; xac] [8364%N]).
  reflexivity.
Defined.

(** [dict([('a', 1), ('b', 2), ('a', 3)])] *)
Lemma Dict_keys_and_last_value_witness :
  let a := VStr (u "a") in
  let c := VStr (u "b") in
  let items := [VTuple [a; VInt 1]; VTuple [c; VInt 2]; VTuple [a; VInt 3]] in
  is_dict (VList items) = false /\ is_set (VList items) = false /\
  py_iter (VList items) = Ok items /\
  exists kvs,
    func_of KDict (VList items) = Ok (VDict kvs) /\
    distinct (map fst kvs) /\ dict_get kvs a = Some (VInt 3).
Proof.
  intros a c items.
  split; [reflexivity|]. split; [reflexivity|]. split; [reflexivity|].
  destruct (Dict_keys_and_last_value (VList items) items
              [(a, VInt 1); (c, VInt 2); (a, VInt 3)] eq_refl eq_refl eq_refl)
    as (kvs & Hd & Hk & _ & _ & _ & Hlast); [repeat constructor|].
  exists kvs. split; [exact Hd|]. split; [exact Hk|].
  apply (Hlast [(a, VInt 1); (c, VInt 2)] a (VInt 3)); reflexivity.
Defined.

(** [set(list('919293'))] is [set('919293')]. *)
Lemma container_classes_compose_witness :
  func_of KList (VStr (u "919293")) = Ok (VList (chars (u "919293"))) /\
  func_of KSet (VList (chars (u "919293")))
  = func_of KSet (VStr (u "919293")).
Proof.
  split; [reflexivity|].
  destruct (container_classes_compose KList (VStr (u "919293"))
              (VList (chars (u "919293"))) eq_refl) as (Hseq & _).
  destruct (Hseq (or_introl eq_refl)) as (_ & _ & Hs & _). exact Hs.
Defined.

(** [Decimal(5.2)] is the float, not the decimal 5.2. *)
Lemma Decimal_is_exact_witness :
  five_point_two <> S754_nan /\
  exists d,
    func_of KDecimal (VFloat five_point_two) = Ok (VDecimal d) /\
    py_eq (VDecimal d) (VFloat five_point_two) = true /\
    py_eq (VDecimal d) (VDecimal (DFinite false 52 (-1))) = false.
Proof.
  split; [discriminate|].
  destruct Decimal_is_exact as (_ & Hf).
  destruct (Hf five_point_two) as (d & Hd & Heq & _).
  exists d. split; [exact Hd|]. split; [apply Heq; discriminate|].
  injection Hd as <-. vm_compute. reflexivity.
Defined.

(** Two fields of one structure. *)
Lemma contribute_to_structure_installs_witness :
  let f := mkField Attribute (class_func KInteger) None None in
  let g := mkField Property (class_func KList) None None in
  "l"%string <> "i"%string /\
  contribute_to_structure f (contribute_to_structure g ∅ "l") "i" !! "l"%string
  = Some (mkDescriptor "l" g).
Proof.
  intros f g. assert (Hne : "l"%string <> "i"%string) by discriminate.
  split; [exact Hne|].
  destruct (contribute_to_structure_installs f
              (contribute_to_structure g ∅ "l") "i") as (_ & Hother & _).
  rewrite (Hother "l"%string Hne).
  destruct (contribute_to_structure_installs g ∅ "l") as (Hsame & _).
  exact Hsame.
Defined.

(** [Field(list, 'ab')]: an [append] to the default is there to stay. *)
Lemma plain_field_shares_its_default_witness :
  let s := State [VStr (u "ab")] [] in
  let l := VList [VStr (u "a"); VStr (u "b")] in
  let l' := VList [VStr (u "a"); VStr (u "b"); VInt 1] in
  let fld := mkField Attribute (class_func KList) (Some 2%nat) None in
  let s1 := State [VStr (u "ab"); l] [1%nat] in
  1%nat <> NoDefault /\
  Field_init Attribute (class_func KList) 1%nat s = (Ok fld, s1) /\
  mutate 2%nat l' (objects s1) = (Ok tt, [VStr (u "ab"); l']) /\
  exists v, get_default fld (State [VStr (u "ab"); l'] (calls s1))
            = (Ok v, State [VStr (u "ab"); l'] (calls s1)) /\
            deref [VStr (u "ab"); l'] v = Some l'.
Proof.
  intros s l l' fld s1.
  assert (H1 : 1%nat <> NoDefault) by discriminate.
  assert (H2 : Field_init Attribute (class_func KList) 1%nat s = (Ok fld, s1))
    by reflexivity.
  assert (H3 : mutate 2%nat l' (objects s1) = (Ok tt, [VStr (u "ab"); l']))
    by reflexivity.
  split; [exact H1|]. split; [exact H2|]. split; [exact H3|].
  destruct (plain_field_shares_its_default (class_func KList) 1%nat s s1 fld
              H1 H2) as (v & Hv & Hall).
  exists v. destruct (Hall s1) as (_ & Hmut).
  injection Hv as <-. apply (Hmut l' _ H3).
Defined.

(** [float(2**53 - 1)] *)
Lemma Float_of_small_integer_is_exact_witness :
  Z.abs 9007199254740991 < 2 ^ 53 /\
  exists f, func_of KFloat (VInt 9007199254740991) = Ok (VFloat f) /\
            func_of KInteger (VFloat f) = Ok (VInt 9007199254740991).
Proof.
  assert (Hz : Z.abs 9007199254740991 < 2 ^ 53) by (vm_compute; reflexivity).
  split; [exact Hz|].
  destruct (Float_of_small_integer_is_exact 9007199254740991 Hz)
    as (f & Hf & _ & Hi).
  exists f. split; assumption.
Defined.

(** [set(range(665, 668))], of the docstring. *)
Lemma Set_keeps_distinct_items_witness :
  let xs := [VInt 665; VInt 666; VInt 667] in
  py_iter (VRange 665 668 1) = Ok xs /\ fits (VRange 665 668 1) = true /\
  forallb hashable xs = true /\ distinct xs /\ Forall self_equal xs /\
  exists s, Permutation s xs /\ func_of KSet (VRange 665 668 1) = Ok (VSet s).
Proof.
  intros xs.
  assert (Hd : distinct xs).
  { apply (distinct_snoc [VInt 665; VInt 666]); [|reflexivity].
    apply (distinct_snoc [VInt 665]); [|reflexivity].
    apply (distinct_snoc []); [constructor | reflexivity]. }
  assert (Hself : Forall self_equal xs) by (repeat constructor).
  assert (Hfit : fits (VRange 665 668 1) = true) by reflexivity.
  split; [reflexivity|]. split; [exact Hfit|]. split; [reflexivity|].
  split; [exact Hd|]. split; [exact Hself|].
  destruct (Set_keeps_distinct_items (VRange 665 668 1) xs eq_refl)
    as (_ & Hkeep).
  destruct (Hkeep Hfit eq_refl Hd Hself) as (s & Hp & Hs & _).
  exists s. split; assumption.
Defined.


(** [int('1_000_000')] and [int('1__000')]. *)
Lemma Integer_digit_groups_witness :
  let valid := Forall (fun g => Forall is_digit g /\ g <> []) in
  valid [[1]; [0; 0; 0]; [0; 0; 0]] /\
  func_of KInteger (VStr (u "1_000_000")) = Ok (VInt 1000000) /\
  func_of KInteger (VStr (u "1__000")) = Raise ValueError.
Proof.
  intros valid.
  assert (H1 : valid [[1]; [0; 0; 0]; [0; 0; 0]])
    by (repeat constructor; unfold is_digit; try lia; discriminate).
  assert (H2 : valid [[1]])
    by (repeat constructor; unfold is_digit; try lia; discriminate).
  assert (H3 : valid [[0; 0; 0]])
    by (repeat constructor; unfold is_digit; try lia; discriminate).
  split; [exact H1|]. split.
  - destruct (Integer_digit_groups [[1]; [0; 0; 0]; [0; 0; 0]] H1
                ltac:(discriminate)) as (Hok & _).
    apply Hok. vm_compute. discriminate.
  - destruct (Integer_digit_groups [[1]] H2 ltac:(discriminate))
      as (_ & _ & _ & Hdouble).
    apply (Hdouble [[0; 0; 0]] H3).
Defined.
